(** * The real-time dashboard controller of static/js/real-time-dashboard.js

    A shallow embedding of the [RealTimeDashboard] class and of the parts of
    the browser it talks to (interval timers, animation frames, the
    document, the notification sink), followed by the properties of the
    live-update lifecycle, of one fetch-and-render tick, of the trend chart
    window and of the counter animation.  The functions and listeners of
    static/js/dashboard-common.js (dark mode, the mobile sidebar) are
    embedded in the module [Common].

    Numbers.  A JavaScript number is modelled by its exact value, a
    rational (an integer where the language gives one), or by [NaN] or an
    infinity.  The operations [add], [sub], [mul] and [div] give the exact
    result and [fl] rounds it to the nearest double.  The start of a counter
    animation, read with [parseInt], and the efficiency percentage are
    rounded as the language rounds them.  The arithmetic of a frame of the
    counter animation is left exact: its easing goes through [Math.pow],
    which the language leaves to the implementation, so the properties of
    the animation are stated for starts and targets in the range where sums
    and differences of integers are exact on doubles too, and give no
    particular value to the frames in between.  Times
    ([performance.now()] and the frame timestamps) are finite. *)

From stdpp Require Import gmap strings list fin_maps pretty.
From Stdlib Require Import Ascii QArith Qround Qabs Qminmax Qpower Lqa Sorted.

Local Open Scope Z_scope.

(** ** Language primitives *)

Module Js.

(** Numbers: a finite value, [NaN] or an infinity.  (Negative zero is not
    told apart from zero.) *)
Inductive ext (A : Type) :=
| Fin (a : A)
| NaN
| Inf (negative : bool).
Arguments Fin {A} a.
Arguments NaN {A}.
Arguments Inf {A} negative.

Definition number := ext Q.
Definition integer := ext Z.

Definition of_int (n : integer) : number :=
  match n with
  | Fin z => Fin (inject_Z z)
  | NaN => NaN
  | Inf s => Inf s
  end.

Definition of_nat (n : nat) : number := Fin (inject_Z (Z.of_nat n)).

Definition is_neg (q : Q) : bool := if Qlt_le_dec q 0 then true else false.
Definition is_zero (q : Q) : bool := Qeq_bool q 0.

Definition add (x y : number) : number :=
  match x, y with
  | Fin a, Fin b => Fin (a + b)%Q
  | NaN, _ | _, NaN => NaN
  | Inf s, Fin _ | Fin _, Inf s => Inf s
  | Inf s, Inf s' => if Bool.eqb s s' then Inf s else NaN
  end.

Definition opp (x : number) : number :=
  match x with
  | Fin a => Fin (- a)%Q
  | NaN => NaN
  | Inf s => Inf (negb s)
  end.

Definition sub (x y : number) : number := add x (opp y).

Definition mul (x y : number) : number :=
  match x, y with
  | Fin a, Fin b => Fin (a * b)%Q
  | NaN, _ | _, NaN => NaN
  | Inf s, Fin q | Fin q, Inf s =>
      if is_zero q then NaN else Inf (xorb s (is_neg q))
  | Inf s, Inf s' => Inf (xorb s s')
  end.

Definition div (x y : number) : number :=
  match x, y with
  | Fin a, Fin b =>
      if is_zero b then (if is_zero a then NaN else Inf (is_neg a))
      else Fin (a / b)%Q
  | NaN, _ | _, NaN => NaN
  | Fin _, Inf _ => Fin 0%Q
  | Inf s, Fin q => Inf (xorb s (is_neg q))
  | Inf _, Inf _ => NaN
  end.

(** [x > 0] *)
Definition gt_zero (x : number) : bool :=
  match x with
  | Fin a => if Qlt_le_dec 0 a then true else false
  | NaN => false
  | Inf s => negb s
  end.

(** [Math.round]: the nearest integer, halves going up. *)
Definition round (x : number) : integer :=
  match x with
  | Fin q => Fin (Qfloor (q + (1 # 2))%Q)
  | NaN => NaN
  | Inf s => Inf s
  end.

(** Rounding to a double.  For [q > 0], [floor_log2 q] is the [e] with
    [2 ^ e <= q < 2 ^ (e + 1)]. *)
Definition floor_log2 (q : Q) : Z :=
  let k := Z.log2 (Qnum q) - Z.log2 (Z.pos (Qden q)) in
  if Qle_bool (2 ^ k) q then k else k - 1.

(** The nearest integer, a half going to the even one. *)
Definition round_half_even (x : Q) : Z :=
  let f := Qfloor x in
  match (x - inject_Z f ?= 1 # 2)%Q with
  | Lt => f
  | Gt => f + 1
  | Eq => if Z.even f then f else f + 1
  end.

(** The double nearest to a number: 53 significant bits, the last place
    never below [2 ^ -1074], a half going to the even significand, and an
    infinity from [2 ^ 1024] on. *)
Definition fl (x : number) : number :=
  match x with
  | Fin q =>
      if is_zero q then Fin 0%Q
      else
        let a := Qabs q in
        let e := Z.max (floor_log2 a) (-1022) in
        let ulp := (2 ^ (e - 52))%Q in
        let r := (inject_Z (round_half_even (a / ulp)) * ulp)%Q in
        if Qle_bool (2 ^ 1024) r then Inf (is_neg q)
        else Fin (if is_neg q then - r else r)%Q
  | _ => x
  end.

(** The number an integer read from a text becomes: itself below
    [2 ^ 53], where every integer is a double, and the nearest double from
    there on, [Infinity] when it is above every double.  (Past twenty
    digits an implementation may take the later digits for zeros; no text
    used below is affected.) *)
Definition to_double (n : integer) : integer :=
  match n with
  | Fin z =>
      if Z.abs z <? 2 ^ 53 then n
      else match fl (Fin (inject_Z z)) with
           | Fin q => Fin (Qfloor q)
           | NaN => NaN
           | Inf s => Inf s
           end
  | _ => n
  end.

(** [String(n)] for an integer (below 1e21 in size, where JavaScript
    prints all the digits). *)
Definition to_string (n : integer) : string :=
  match n with
  | Fin z => pretty z
  | NaN => "NaN"
  | Inf false => "Infinity"
  | Inf true => "-Infinity"
  end.

(** [x || 0] on a number: [NaN] and [0] are the falsy ones. *)
Definition or_zero (x : integer) : integer :=
  match x with
  | NaN => Fin 0
  | _ => x
  end.

(** The white space [parseInt] skips.  A text is held as the bytes of its
    UTF-8 encoding.  In one byte: TAB, LF, VT, FF, CR and the space. *)
Definition is_space (a : ascii) : bool :=
  let n := N_of_ascii a in
  ((9 <=? n) && (n <=? 13))%N || (n =? 32)%N.

(** In two bytes: U+00A0. *)
Definition is_space2 (a b : ascii) : bool :=
  ((N_of_ascii a =? 194) && (N_of_ascii b =? 160))%N.

(** In three bytes: U+1680, U+2000 to U+200A, U+2028, U+2029, U+202F,
    U+205F, U+3000 and U+FEFF. *)
Definition is_space3 (a b c : ascii) : bool :=
  let '(x, y, z) := (N_of_ascii a, N_of_ascii b, N_of_ascii c) in
  ((x =? 225) && (y =? 154) && (z =? 128)
   || (x =? 226) && (y =? 128)
      && ((128 <=? z) && (z <=? 138) || (z =? 168) || (z =? 169) || (z =? 175))
   || (x =? 226) && (y =? 129) && (z =? 159)
   || (x =? 227) && (y =? 128) && (z =? 128)
   || (x =? 239) && (y =? 187) && (z =? 191))%N.

(** The text after its leading white space. *)
Fixpoint skip_spaces (s : string) : string :=
  match s with
  | String a r =>
      if is_space a then skip_spaces r
      else if (N_of_ascii a <? 128)%N then s
      else match r with
           | String b r' =>
               if is_space2 a b then skip_spaces r'
               else match r' with
                    | String c r'' =>
                        if is_space3 a b c then skip_spaces r'' else s
                    | EmptyString => s
                    end
           | EmptyString => s
           end
  | EmptyString => s
  end.

(** The value of a character as a digit, in a radix of 10 or 16. *)
Definition digit (radix : Z) (a : ascii) : option Z :=
  let n := Z.of_N (N_of_ascii a) in
  let v := if (48 <=? n) && (n <=? 57) then Some (n - 48)
           else if (97 <=? n) && (n <=? 102) then Some (n - 87)
           else if (65 <=? n) && (n <=? 70) then Some (n - 55)
           else None in
  match v with
  | Some d => if d <? radix then Some d else None
  | None => None
  end.

(** The longest prefix of digits; [acc] is [None] until a digit is read. *)
Fixpoint digits (radix : Z) (s : string) (acc : option Z) : option Z :=
  match s with
  | String a r =>
      match digit radix a with
      | Some d => digits radix r (Some (default 0 acc * radix + d))
      | None => acc
      end
  | EmptyString => acc
  end.

(** [parseInt(s)] without a radix argument, as the integer the digits
    denote. *)
Definition parseInt (s : string) : integer :=
  let s := skip_spaces s in
  let '(negative, s) :=
    match s with
    | String "-" r => (true, r)
    | String "+" r => (false, r)
    | _ => (false, s)
    end in
  let '(radix, s) :=
    match s with
    | String "0" (String "x" r) => (16, r)
    | String "0" (String "X" r) => (16, r)
    | _ => (10, s)
    end in
  match digits radix s None with
  | Some n => Fin (if negative : bool then - n else n)
  | None => NaN
  end.

End Js.

(** ** Data *)

(** The payloads of the five endpoints, with the fields the class reads. *)
Record Vehicle := { status : string }.

Record Weather := {
  condition : string; temperature : Q; humidity : Q; visibility : Q }.

Record Traffic := {
  level : string; delay_minutes : Q; timestamp : string }.

Record Alert := { urgency : string; message : string }.

(** [alerts] may be missing from the body: [data.alerts] is then falsy. *)
Record Maintenance := { alerts : option (list Alert) }.

Record Track := {
  employee_id : string; vehicle_number : string;
  trip_status : string; track_timestamp : string }.

(** What a container shows after one of the render methods has written its
    [innerHTML]: the template it used and the values interpolated in it. *)
Inductive View :=
| WeatherCard (icon : string) (w : Weather)
| TrafficCard (color : string) (lvl : string) (delay : Js.integer)
    (updated : string)
| AlertsSummary (critical warnings : nat)
| TrackingItems (items : list Track).

(** The line chart of the carbon trend keeps two parallel arrays. *)
Record TrendChart := { labels : list string; data : list Q }.

Record Charts := {
  carbonTrend : option TrendChart;
  fuelConsumption : option (list Q);
  efficiency : option (list Q) }.

(** A pending [requestAnimationFrame] callback of [animateCounter]: the
    variables its closure captured. *)
Record Animation := {
  element : string;
  startValue : Js.integer;
  startTime : Q;
  targetValue : Js.number;
  suffix : string }.

Inductive Permission := PermDefault | PermGranted | PermDenied.

(** The effects of the class that leave no state behind, in the order they
    happen.  [ECall] marks the entry into one of the five render methods of
    a tick; [EToast] is the toast [showNotification] appends to the body
    (with its removal scheduled after [duration]), [ENotification] the
    native notification it may raise. *)
Inductive Event :=
| ESetInterval (id : positive) (delay : Js.number)
| EClearInterval (id : positive)
| EFetch (url : string)
| ECall (method : string)
| EToast (text : string) (type : string) (duration : Z)
| ENotification (body : string)
| EConsoleError
| ERequestPermission.

(** The dashboard object and the browser around it.  The document is seen
    through [getElementById]: [texts] holds the elements the class reads or
    writes through [textContent] (the counters, the refresh time), [regions]
    those it only tests for or fills through [innerHTML] (the four
    containers, the three canvases), with the view last written, if any. *)
Record World := MkWorld {
  (* fields of the RealTimeDashboard object *)
  updateInterval : Js.number;
  isLiveMode : bool;
  updateTimer : option positive;
  charts : Charts;
  (* interval timers: handle to delay; handles are handed out in order *)
  timers : gmap positive Js.number;
  nextHandle : positive;
  (* the document: text elements and containers by id, the live
     indicator (display, text), the display of the loading indicators *)
  texts : gmap string string;
  regions : gmap string (option View);
  liveIndicator : option (string * string);
  loadingShown : bool;
  (* Notification.permission, if the window has the interface at all *)
  permission : option Permission;
  (* performance.now() and the callbacks waiting for the next frame *)
  clock : Q;
  frameCallbacks : list Animation;
  (* calls of fetchRealTimeData suspended at their await *)
  awaiting : nat;
  trace : list Event }.

(** Field updates. *)

Definition set_updateInterval v (w : World) : World :=
  MkWorld v (isLiveMode w) (updateTimer w) (charts w) (timers w)
    (nextHandle w) (texts w) (regions w) (liveIndicator w) (loadingShown w)
    (permission w) (clock w) (frameCallbacks w) (awaiting w) (trace w).

Definition set_isLiveMode v (w : World) : World :=
  MkWorld (updateInterval w) v (updateTimer w) (charts w) (timers w)
    (nextHandle w) (texts w) (regions w) (liveIndicator w) (loadingShown w)
    (permission w) (clock w) (frameCallbacks w) (awaiting w) (trace w).

Definition set_updateTimer v (w : World) : World :=
  MkWorld (updateInterval w) (isLiveMode w) v (charts w) (timers w)
    (nextHandle w) (texts w) (regions w) (liveIndicator w) (loadingShown w)
    (permission w) (clock w) (frameCallbacks w) (awaiting w) (trace w).

Definition set_charts v (w : World) : World :=
  MkWorld (updateInterval w) (isLiveMode w) (updateTimer w) v (timers w)
    (nextHandle w) (texts w) (regions w) (liveIndicator w) (loadingShown w)
    (permission w) (clock w) (frameCallbacks w) (awaiting w) (trace w).

Definition set_timers v (w : World) : World :=
  MkWorld (updateInterval w) (isLiveMode w) (updateTimer w) (charts w) v
    (nextHandle w) (texts w) (regions w) (liveIndicator w) (loadingShown w)
    (permission w) (clock w) (frameCallbacks w) (awaiting w) (trace w).

Definition set_nextHandle v (w : World) : World :=
  MkWorld (updateInterval w) (isLiveMode w) (updateTimer w) (charts w)
    (timers w) v (texts w) (regions w) (liveIndicator w) (loadingShown w)
    (permission w) (clock w) (frameCallbacks w) (awaiting w) (trace w).

Definition set_texts v (w : World) : World :=
  MkWorld (updateInterval w) (isLiveMode w) (updateTimer w) (charts w)
    (timers w) (nextHandle w) v (regions w) (liveIndicator w) (loadingShown w)
    (permission w) (clock w) (frameCallbacks w) (awaiting w) (trace w).

Definition set_regions v (w : World) : World :=
  MkWorld (updateInterval w) (isLiveMode w) (updateTimer w) (charts w)
    (timers w) (nextHandle w) (texts w) v (liveIndicator w) (loadingShown w)
    (permission w) (clock w) (frameCallbacks w) (awaiting w) (trace w).

Definition set_liveIndicator v (w : World) : World :=
  MkWorld (updateInterval w) (isLiveMode w) (updateTimer w) (charts w)
    (timers w) (nextHandle w) (texts w) (regions w) v (loadingShown w)
    (permission w) (clock w) (frameCallbacks w) (awaiting w) (trace w).

Definition set_loadingShown v (w : World) : World :=
  MkWorld (updateInterval w) (isLiveMode w) (updateTimer w) (charts w)
    (timers w) (nextHandle w) (texts w) (regions w) (liveIndicator w) v
    (permission w) (clock w) (frameCallbacks w) (awaiting w) (trace w).

Definition set_clock v (w : World) : World :=
  MkWorld (updateInterval w) (isLiveMode w) (updateTimer w) (charts w)
    (timers w) (nextHandle w) (texts w) (regions w) (liveIndicator w)
    (loadingShown w) (permission w) v (frameCallbacks w) (awaiting w)
    (trace w).

Definition set_frameCallbacks v (w : World) : World :=
  MkWorld (updateInterval w) (isLiveMode w) (updateTimer w) (charts w)
    (timers w) (nextHandle w) (texts w) (regions w) (liveIndicator w)
    (loadingShown w) (permission w) (clock w) v (awaiting w) (trace w).

Definition set_awaiting v (w : World) : World :=
  MkWorld (updateInterval w) (isLiveMode w) (updateTimer w) (charts w)
    (timers w) (nextHandle w) (texts w) (regions w) (liveIndicator w)
    (loadingShown w) (permission w) (clock w) (frameCallbacks w) v (trace w).

Definition set_trace v (w : World) : World :=
  MkWorld (updateInterval w) (isLiveMode w) (updateTimer w) (charts w)
    (timers w) (nextHandle w) (texts w) (regions w) (liveIndicator w)
    (loadingShown w) (permission w) (clock w) (frameCallbacks w) (awaiting w)
    v.

(** ** The browser *)

Definition emit (e : Event) (w : World) : World :=
  set_trace (trace w ++ [e]) w.

(** [setInterval(callback, delay)].  The class registers one callback only,
    the arrow function of [startLiveUpdates], so a timer is its handle and
    its delay.  Handles are positive integers, never reused. *)
Definition setInterval (delay : Js.number) (w : World) : positive * World :=
  let id := nextHandle w in
  (id, emit (ESetInterval id delay)
         (set_nextHandle (Pos.succ id)
            (set_timers (<[id := delay]> (timers w)) w))).

Definition clearInterval (id : positive) (w : World) : World :=
  emit (EClearInterval id) (set_timers (delete id (timers w)) w).

Definition fetch (url : string) (w : World) : World := emit (EFetch url) w.

Definition requestAnimationFrame (a : Animation) (w : World) : World :=
  set_frameCallbacks (frameCallbacks w ++ [a]) w.

(** ** The notification sink *)

(** The toast is created with its removal scheduled after [duration]; an
    error is also raised as a native notification when permitted. *)
Definition showNotification (text type : string) (duration : Z) (w : World)
  : World :=
  let w := emit (EToast text type duration) w in
  if decide (type = "error") then
    match permission w with
    | Some PermGranted => emit (ENotification text) w
    | _ => w
    end
  else w.

Definition setupNotifications (w : World) : World :=
  match permission w with
  | Some PermDefault => emit ERequestPermission w
  | _ => w
  end.

Definition showLoadingIndicators (w : World) : World := set_loadingShown true w.
Definition hideLoadingIndicators (w : World) : World := set_loadingShown false w.

(** ** One tick: fetchRealTimeData *)

(** The part of [fetchRealTimeData] that runs in the call itself: the
    loading indicators are shown and the five requests are issued, then the
    function is suspended at its [await]. *)
Definition fetchRealTimeData_call (w : World) : World :=
  let w := showLoadingIndicators w in
  let w := fetch "/api/trucks" w in
  let w := fetch "/api/real_weather/28.7041/77.1025" w in
  let w := fetch "/api/traffic_status" w in
  let w := fetch "/api/maintenance_alerts" w in
  let w := fetch "/api/employee_tracking" w in
  set_awaiting (S (awaiting w)) w.

(** ** The live-update lifecycle *)

(** A handle is truthy: it is a positive integer.  [undefined] (before the
    first start) and [null] (after a stop) are both [None]. *)
Definition startLiveUpdates (w : World) : World :=
  let w := match updateTimer w with
           | Some id => clearInterval id w
           | None => w
           end in
  let '(id, w) := setInterval (updateInterval w) w in
  let w := set_updateTimer (Some id) w in
  fetchRealTimeData_call w.

Definition stopLiveUpdates (w : World) : World :=
  match updateTimer w with
  | Some id => set_updateTimer None (clearInterval id w)
  | None => w
  end.

Definition restartLiveUpdates (w : World) : World :=
  let w := stopLiveUpdates w in
  if isLiveMode w then startLiveUpdates w else w.

Definition toggleLiveMode (enabled : bool) (w : World) : World :=
  let w := set_isLiveMode enabled w in
  if enabled then
    let w := startLiveUpdates w in
    let w := match liveIndicator w with
             | Some _ =>
                 set_liveIndicator (Some ("inline-flex", "🔴 Live Data")) w
             | None => w
             end in
    showNotification "Live mode enabled" "success" 5000 w
  else
    let w := stopLiveUpdates w in
    let w := match liveIndicator w with
             | Some (_, text) => set_liveIndicator (Some ("none", text)) w
             | None => w
             end in
    showNotification "Live mode disabled" "info" 5000 w.

(** The callback of the timer: a tick, in live mode only. *)
Definition timerCallback (w : World) : World :=
  if isLiveMode w then fetchRealTimeData_call w else w.

(** The change listener of the interval selector, on the selected value. *)
Definition onIntervalChange (value : string) (w : World) : World :=
  let w := set_updateInterval
             (Js.mul (Js.of_int (Js.parseInt value)) (Js.Fin 1000%Q)) w in
  if isLiveMode w then restartLiveUpdates w else w.

Definition refreshAllData (w : World) : World :=
  fetchRealTimeData_call (showNotification "Refreshing all data..." "info" 5000 w).

(** ** Rendering *)

(** A lookup in an object literal with a default, [table[key] || other];
    the keys are taken not to be names inherited from [Object.prototype]. *)
Definition lookup_or (table : gmap string string) (key other : string) : string :=
  default other (table !! key).

Definition getWeatherIcon (cond : string) : string :=
  lookup_or (list_to_map [("Clear", "☀️"); ("Cloudy", "☁️"); ("Rainy", "🌧️");
                          ("Foggy", "🌫️"); ("Snow", "❄️")]) cond "🌤️".

Definition getTrafficColor (lvl : string) : string :=
  lookup_or (list_to_map [("Low", "#11998e"); ("Medium", "#f093fb");
                          ("High", "#f5576c")]) lvl "#667eea".

(** The counter animation.  [animateCounter] reads the element's text once
    and asks for a frame; [animate] is the frame callback it passes.  The
    start is the number [parseInt] returns, the double of the integer it
    reads.  The arithmetic of a frame is exact: with start and target
    integers in the exact range it is that of doubles at progress 0 and 1,
    and within a rounding of it in between. *)
Definition progress (a : Animation) (currentTime : Q) : Q :=
  let elapsed := (currentTime - startTime a)%Q in
  Qmin (elapsed / 1000) 1.

Definition easeOutQuart (p : Q) : Q := (1 - (1 - p) ^ 4)%Q.

Definition currentValue (a : Animation) (currentTime : Q) : Js.integer :=
  let start := Js.of_int (startValue a) in
  Js.round
    (Js.add start
       (Js.mul (Js.sub (targetValue a) start)
          (Js.Fin (easeOutQuart (progress a currentTime))))).

Definition animate (a : Animation) (currentTime : Q) (w : World) : World :=
  let text := (Js.to_string (currentValue a currentTime) +:+ suffix a)%string in
  let w := set_texts (<[element a := text]> (texts w)) w in
  if Qlt_le_dec (progress a currentTime) 1 then requestAnimationFrame a w
  else w.

Definition animateCounter (elementId : string) (target : Js.number)
    (sfx : string) (w : World) : World :=
  match texts w !! elementId with
  | None => w
  | Some text =>
      requestAnimationFrame
        {| element := elementId;
           startValue := Js.or_zero (Js.to_double (Js.parseInt text));
           startTime := clock w;
           targetValue := target;
           suffix := sfx |} w
  end.

(** The browser runs the callbacks asked for since the last frame, in
    order, all with the timestamp of the frame. *)
Definition animationFrame (t : Q) (w : World) : World :=
  fold_left (fun w a => animate a t w) (frameCallbacks w)
    (set_frameCallbacks [] w).

Definition in_transit (v : Vehicle) : bool := bool_decide (status v = "In Transit").
Definition available (v : Vehicle) : bool := bool_decide (status v = "Available").

(** The efficiency percentage of [updateVehicleStats]; the quotient and
    the product are each rounded to a double. *)
Definition fleetEfficiency (totalVehicles activeVehicles : nat) : Js.integer :=
  if Js.gt_zero (Js.of_nat totalVehicles) then
    Js.round
      (Js.fl (Js.mul
                (Js.fl (Js.div (Js.of_nat activeVehicles) (Js.of_nat totalVehicles)))
                (Js.Fin 100%Q)))
  else Js.Fin 0.

Definition updateVehicleStats (vehicles : list Vehicle) (w : World) : World :=
  let w := emit (ECall "updateVehicleStats") w in
  let totalVehicles := length vehicles in
  let activeVehicles := length (List.filter in_transit vehicles) in
  let idleVehicles := length (List.filter available vehicles) in
  let w := animateCounter "totalVehicles" (Js.of_nat totalVehicles) "" w in
  let w := animateCounter "activeVehicles" (Js.of_nat activeVehicles) "" w in
  let w := animateCounter "idleVehicles" (Js.of_nat idleVehicles) "" w in
  let efficiency := fleetEfficiency totalVehicles activeVehicles in
  animateCounter "fleetEfficiency" (Js.of_int efficiency) "%" w.

(** [container.innerHTML = ...] on the element with this id, if any. *)
Definition render (id : string) (v : View) (w : World) : World :=
  set_regions (<[id := Some v]> (regions w)) w.

Definition updateWeatherInfo (weather : Weather) (w : World) : World :=
  let w := emit (ECall "updateWeatherInfo") w in
  match regions w !! "weatherInfo" with
  | Some _ =>
      render "weatherInfo"
        (WeatherCard (getWeatherIcon (condition weather)) weather) w
  | None => w
  end.

Definition updateTrafficInfo (traffic : Traffic) (w : World) : World :=
  let w := emit (ECall "updateTrafficInfo") w in
  match regions w !! "trafficInfo" with
  | Some _ =>
      let trafficColor := getTrafficColor (level traffic) in
      render "trafficInfo"
        (TrafficCard trafficColor (level traffic)
           (Js.round (Js.Fin (delay_minutes traffic))) (timestamp traffic)) w
  | None => w
  end.

Definition critical (a : Alert) : bool := bool_decide (urgency a = "Critical").
Definition warning (a : Alert) : bool := bool_decide (urgency a = "Warning").

Definition updateMaintenanceAlerts (m : Maintenance) (w : World) : World :=
  let w := emit (ECall "updateMaintenanceAlerts") w in
  match regions w !! "maintenanceAlerts", alerts m with
  | Some _, Some all =>
      let criticalAlerts := List.filter critical all in
      let warningAlerts := List.filter warning all in
      let w := render "maintenanceAlerts"
                 (AlertsSummary (length criticalAlerts) (length warningAlerts)) w in
      fold_left
        (fun w alert =>
           showNotification ("Critical: " +:+ message alert) "error" 10000 w)
        criticalAlerts w
  | _, _ => w
  end.

Definition updateLiveTracking (tracks : list Track) (w : World) : World :=
  let w := emit (ECall "updateLiveTracking") w in
  match regions w !! "liveTracking" with
  | Some _ =>
      if (0 <? length tracks)%nat
      then render "liveTracking" (TrackingItems (take 5 tracks)) w
      else w
  | None => w
  end.

(** ** Charts *)

(** What a step takes from the environment: the locale time string of the
    moment and the values of the successive calls of [Math.random]. *)
Record Ambient := { localeTime : string; random : nat -> Q }.

(** Push one point, then drop the oldest one when there are more than ten
    labels.  [shift] on an empty array does nothing. *)
Definition updateCarbonTrendChart (timeLabel : string) (r : Q) (chart : TrendChart)
  : TrendChart :=
  let labels' := labels chart ++ [timeLabel] in
  let data' := data chart ++ [(r * 100 + 50)%Q] in
  if (10 <? length labels')%nat
  then {| labels := tail labels'; data := tail data' |}
  else {| labels := labels'; data := data' |}.

Definition updateFuelConsumptionChart (r0 r1 r2 : Q) : list Q :=
  [(r0 * 30 + 60)%Q; (r1 * 20 + 20)%Q; (r2 * 10 + 5)%Q].

Definition updateEfficiencyChart (rnd : nat -> Q) (series : list Q) : list Q :=
  imap (fun i _ => (rnd i * 20 + 75)%Q) series.

(** Each chart is updated if it was created; [n] counts the calls of
    [Math.random] so far. *)
Definition updateCharts (amb : Ambient) (w : World) : World :=
  let c := charts w in
  let '(trend, n) :=
    match carbonTrend c with
    | Some chart =>
        (Some (updateCarbonTrendChart (localeTime amb) (random amb 0%nat) chart), 1%nat)
    | None => (None, 0%nat)
    end in
  let '(fuel, n) :=
    match fuelConsumption c with
    | Some _ =>
        (Some (updateFuelConsumptionChart (random amb n) (random amb (n + 1)%nat)
                 (random amb (n + 2)%nat)), (n + 3)%nat)
    | None => (None, n)
    end in
  let eff :=
    updateEfficiencyChart (fun i => random amb (n + i)%nat) <$> efficiency c in
  set_charts {| carbonTrend := trend; fuelConsumption := fuel; efficiency := eff |} w.

Definition initializeCharts (w : World) : World :=
  let canvas id := bool_decide (is_Some (regions w !! id)) in
  set_charts
    {| carbonTrend :=
         if canvas "carbonTrendChart" then Some {| labels := []; data := [] |}
         else None;
       fuelConsumption :=
         if canvas "fuelConsumptionChart" then Some [70; 25; 5]%Q else None;
       efficiency :=
         if canvas "efficiencyChart" then Some [85; 92; 78; 95; 88; 82; 90]%Q
         else None |} w.

Definition updateLastRefreshTime (amb : Ambient) (w : World) : World :=
  match texts w !! "lastRefreshTime" with
  | Some _ =>
      set_texts (<["lastRefreshTime" := ("Last updated: " +:+ localeTime amb)%string]>
                   (texts w)) w
  | None => w
  end.

(** ** The rest of a tick *)

Inductive Settled (A : Type) :=
| Fulfilled (a : A)
| Rejected.
Arguments Fulfilled {A} a.
Arguments Rejected {A}.

(** How the five promises of a tick settle. *)
Record Responses := {
  vehicleData : Settled (list Vehicle);
  weatherData : Settled Weather;
  trafficData : Settled Traffic;
  maintenanceData : Settled Maintenance;
  trackingData : Settled (list Track) }.

(** [Promise.all]: fulfilled with all the values, or rejected. *)
Definition Promise_all (r : Responses)
  : Settled (list Vehicle * Weather * Traffic * Maintenance * list Track) :=
  match vehicleData r, weatherData r, trafficData r, maintenanceData r,
        trackingData r with
  | Fulfilled v, Fulfilled we, Fulfilled t, Fulfilled m, Fulfilled k =>
      Fulfilled (v, we, t, m, k)
  | _, _, _, _, _ => Rejected
  end.

Definition anyRejected (r : Responses) : Prop :=
  vehicleData r = Rejected \/ weatherData r = Rejected \/
  trafficData r = Rejected \/ maintenanceData r = Rejected \/
  trackingData r = Rejected.

(** [fetchRealTimeData] from its [await] on: the [try] block continues when
    all five are fulfilled, the [catch] block runs when one is rejected.
    (The payloads are typed, so a render method has no way to throw here.) *)
Definition fetchRealTimeData_resume (r : Responses) (amb : Ambient) (w : World)
  : World :=
  let w := set_awaiting (pred (awaiting w)) w in
  match Promise_all r with
  | Fulfilled (vehicles, weather, traffic, maintenance, tracking) =>
      let w := updateVehicleStats vehicles w in
      let w := updateWeatherInfo weather w in
      let w := updateTrafficInfo traffic w in
      let w := updateMaintenanceAlerts maintenance w in
      let w := updateLiveTracking tracking w in
      let w := updateCharts amb w in
      let w := hideLoadingIndicators w in
      updateLastRefreshTime amb w
  | Rejected =>
      let w := emit EConsoleError w in
      let w := showNotification "Failed to fetch real-time data" "error" 5000 w in
      hideLoadingIndicators w
  end.

(** One whole tick, when nothing else runs in between. *)
Definition fetchRealTimeData (r : Responses) (amb : Ambient) (w : World) : World :=
  fetchRealTimeData_resume r amb (fetchRealTimeData_call w).

(** ** Construction and the states the page can reach *)

(** [setupEventListeners] only registers the listeners modelled by
    [toggleLiveMode], [refreshAllData] and [onIntervalChange]. *)
Definition setupEventListeners (w : World) : World := w.

Definition init (w : World) : World :=
  let w := setupEventListeners w in
  let w := initializeCharts w in
  let w := startLiveUpdates w in
  setupNotifications w.

(** [new RealTimeDashboard()]; [updateTimer] is not assigned before [init]. *)
Definition construct (w : World) : World :=
  let w := set_updateInterval (Js.Fin 30000%Q) w in
  let w := set_isLiveMode false w in
  let w := set_charts {| carbonTrend := None; fuelConsumption := None;
                         efficiency := None |} w in
  let w := set_updateTimer None w in
  init w.

(** The page as the script finds it: no timer, no frame callback, nothing
    in flight. *)
Definition loaded (w : World) : Prop :=
  timers w = ∅ /\ frameCallbacks w = [] /\ awaiting w = 0%nat /\ trace w = [].

(** What can happen once the dashboard exists: the methods of the lifecycle,
    the listeners, a timer firing, the fetches of a tick settling, a frame,
    time passing. *)
Inductive step : World -> World -> Prop :=
| step_toggle enabled w : step w (toggleLiveMode enabled w)
| step_start w : step w (startLiveUpdates w)
| step_stop w : step w (stopLiveUpdates w)
| step_restart w : step w (restartLiveUpdates w)
| step_interval value w : step w (onIntervalChange value w)
| step_refresh w : step w (refreshAllData w)
| step_timer id w : is_Some (timers w !! id) -> step w (timerCallback w)
| step_settle r amb w :
    (0 < awaiting w)%nat -> step w (fetchRealTimeData_resume r amb w)
| step_frame t w : step w (animationFrame t w)
| step_clock t w : (clock w <= t)%Q -> step w (set_clock t w).

Definition reachable (w : World) : Prop :=
  exists w0, loaded w0 /\ rtc step (construct w0) w.

(** ** Vocabulary of the properties, and inputs to try them on *)

(** The timer side of the world: what the lifecycle methods own. *)
Definition timerState (w : World) :=
  (updateInterval w, isLiveMode w, updateTimer w, timers w, nextHandle w).

(** The handle names the one timer there is, or there is none. *)
Definition scheduled (w : World) : Prop :=
  match updateTimer w with
  | Some id => exists delay, timers w = {[id := delay]}
  | None => timers w = ∅
  end.

(** The requests a call of [fetchRealTimeData] issues. *)
Definition tickRequests : list Event :=
  [EFetch "/api/trucks"; EFetch "/api/real_weather/28.7041/77.1025";
   EFetch "/api/traffic_status"; EFetch "/api/maintenance_alerts";
   EFetch "/api/employee_tracking"].

(** A page to try the definitions on: the four counters, the refresh time,
    the four containers and the three canvases, notifications not yet
    decided. *)
Definition examplePage : World :=
  {| updateInterval := Js.NaN; isLiveMode := false; updateTimer := None;
     charts := {| carbonTrend := None; fuelConsumption := None; efficiency := None |};
     timers := ∅; nextHandle := 1%positive;
     texts := list_to_map [("totalVehicles", "0"); ("activeVehicles", "0");
                           ("idleVehicles", "0"); ("fleetEfficiency", "0%");
                           ("lastRefreshTime", "")];
     regions := list_to_map [("weatherInfo", None); ("trafficInfo", None);
                             ("maintenanceAlerts", None); ("liveTracking", None);
                             ("carbonTrendChart", None);
                             ("fuelConsumptionChart", None);
                             ("efficiencyChart", None)];
     liveIndicator := Some ("none", "");
     loadingShown := false;
     permission := Some PermDefault;
     clock := 0%Q; frameCallbacks := []; awaiting := 0%nat; trace := [] |}.

(** The invariant as the data model words it. *)
Definition liveModeInvariant (w : World) : Prop :=
  (is_Some (updateTimer w) <-> timers w <> ∅) /\
  (isLiveMode w = false -> timers w = ∅).

(** The example page with the dashboard constructed and live mode on. *)
Definition liveExample : World := toggleLiveMode true (construct examplePage).

Definition isRenderCall (e : Event) : bool :=
  match e with
  | ECall _ => true
  | _ => false
  end.

Definition isErrorToast (e : Event) : bool :=
  match e with
  | EToast _ type _ => bool_decide (type = "error")
  | _ => false
  end.

(** What the [catch] block adds to the trace. *)
Definition failureEvents (p : option Permission) : list Event :=
  [EConsoleError; EToast "Failed to fetch real-time data" "error" 5000]
  ++ match p with
     | Some PermGranted => [ENotification "Failed to fetch real-time data"]
     | _ => []
     end.

Definition oneRejected : Responses :=
  {| vehicleData := Fulfilled [{| status := "In Transit" |}];
     weatherData := Fulfilled {| condition := "Clear"; temperature := 31;
                                 humidity := 40; visibility := 10 |};
     trafficData := Rejected;
     maintenanceData := Fulfilled {| alerts := Some [] |};
     trackingData := Fulfilled [] |}.

Definition noon : Ambient := {| localeTime := "12:00:00"; random := fun _ => 1 # 2 |}.

(** The window of the trend series: labels and values in step, ten points
    at most. *)
Definition trendWindow (w : World) : Prop :=
  match carbonTrend (charts w) with
  | Some chart =>
      length (labels chart) = length (data chart) /\
      (length (labels chart) <= 10)%nat
  | None => True
  end.

Definition tenPoints : TrendChart :=
  {| labels := ["1"; "2"; "3"; "4"; "5"; "6"; "7"; "8"; "9"; "10"];
     data := [1; 2; 3; 4; 5; 6; 7; 8; 9; 10]%Q |}.

(** The events of one notification per alert, for the given permission. *)
Definition criticalEvents (p : option Permission) (l : list Alert) : list Event :=
  flat_map
    (fun alert =>
       EToast ("Critical: " +:+ message alert) "error" 10000
       :: match p with
          | Some PermGranted => [ENotification ("Critical: " +:+ message alert)]
          | _ => []
          end) l.

(** What C7 asks of a call, on a payload and a document: two toasts of type
    error among the events of the call, and the summary showing two. *)
Definition twoCriticalShown (m : Maintenance) (w : World) : Prop :=
  let w' := updateMaintenanceAlerts m w in
  exists events warnings,
    trace w' = trace w ++ events /\
    length (List.filter isErrorToast events) = 2%nat /\
    regions w' !! "maintenanceAlerts" = Some (Some (AlertsSummary 2 warnings)).

Definition twoCritical : Maintenance :=
  {| alerts := Some [ {| urgency := "Critical"; message := "Brake wear" |};
                      {| urgency := "Warning"; message := "Oil change due" |};
                      {| urgency := "Critical"; message := "Engine overheating" |} ] |}.

(** The example page without its containers. *)
Definition bareDocument : World := set_regions ∅ examplePage.

(** The number a frame shows, for a finite start [s] and target [q], at
    progress [p]. *)
Definition counterValue (s : Z) (q p : Q) : Z :=
  Qfloor (inject_Z s + (q - inject_Z s) * easeOutQuart p + (1 # 2))%Q.

(** The frames the browser delivers, one after the other. *)
Fixpoint runFrames (ts : list Q) (w : World) : World :=
  match ts with
  | [] => w
  | t :: ts => runFrames ts (animationFrame t w)
  end.

(** The text of an element as it stands after each of the frames. *)
Fixpoint textAfterFrames (id : string) (ts : list Q) (w : World)
  : list (option string) :=
  match ts with
  | [] => []
  | t :: ts =>
      let w' := animationFrame t w in
      texts w' !! id :: textAfterFrames id ts w'
  end.

(** What a frame callback writes. *)
Definition frameText (a : Animation) (t : Q) : string :=
  Js.to_string (currentValue a t) +:+ suffix a.

Definition running (a : Animation) (t : Q) : bool :=
  if Qlt_le_dec (progress a t) 1 then true else false.

(** The callback [animateCounter] asks a frame for, when the element is in
    the document. *)
Definition counterAnimation (w : World) (id : string) (target : Js.number)
    (sfx : string) : list Animation :=
  match texts w !! id with
  | Some text =>
      [{| element := id;
          startValue := Js.or_zero (Js.to_double (Js.parseInt text));
          startTime := clock w; targetValue := target; suffix := sfx |}]
  | None => []
  end.

(** The four counters and what [updateVehicleStats] sends them to. *)
Definition vehicleCounters (vehicles : list Vehicle)
  : list (string * Js.number * string) :=
  let totalVehicles := length vehicles in
  let activeVehicles := length (List.filter in_transit vehicles) in
  let idleVehicles := length (List.filter available vehicles) in
  [("totalVehicles", Js.of_nat totalVehicles, "");
   ("activeVehicles", Js.of_nat activeVehicles, "");
   ("idleVehicles", Js.of_nat idleVehicles, "");
   ("fleetEfficiency", Js.of_int (fleetEfficiency totalVehicles activeVehicles), "%")].

Definition counterAnimations (w : World) (cs : list (string * Js.number * string))
  : list Animation :=
  flat_map (fun '(id, target, sfx) => counterAnimation w id target sfx) cs.

(** The text an animation ends on. *)
Definition finalText (a : Animation) : string :=
  Js.to_string (Js.round (targetValue a)) +:+ suffix a.


Definition threeVehicles : list Vehicle :=
  [{| status := "In Transit" |}; {| status := "Available" |};
   {| status := "In Transit" |}].

(** ** The rest of the class *)

Definition getNotificationIcon (type : string) : string :=
  lookup_or (list_to_map [("success", "✅"); ("error", "❌"); ("warning", "⚠️");
                          ("info", "ℹ️")]) type "ℹ️".

(** The charts of [this.charts], in the order their keys were added. *)
Definition createdCharts (c : Charts) : list string :=
  (if bool_decide (is_Some (carbonTrend c)) then ["carbonTrend"] else [])
  ++ (if bool_decide (is_Some (fuelConsumption c)) then ["fuelConsumption"] else [])
  ++ (if bool_decide (is_Some (efficiency c)) then ["efficiency"] else []).

(** [destroy()]: the timer is stopped and every chart is destroyed; the
    names of the charts destroyed come with the state.  The class never
    opens its [websocket], so there is none to close. *)
Definition destroy (w : World) : World * list string :=
  (stopLiveUpdates w, createdCharts (charts w)).

(** The events a call of [updateMaintenanceAlerts] adds after its entry. *)
Definition maintenanceEvents (w : World) (m : Maintenance) : list Event :=
  match regions w !! "maintenanceAlerts", alerts m with
  | Some _, Some all => criticalEvents (permission w) (List.filter critical all)
  | _, _ => []
  end.


(** A value of [Math.random]. *)
Definition unit_interval (r : Q) : Prop := (0 <= r /\ r < 1)%Q.

(** ** dashboard-common.js *)

Module Common.

(** The page as the common script sees it: the classes of the body, the
    label of the dark-mode toggle if there is one, the local storage, the
    classes of the sidebar if there is one, whether the mobile menu button
    exists, the classes of the parent of the dropdown button if there is
    one, and the width of the window. *)
Record Page := MkPage {
  bodyClasses : gset string;
  darkToggle : option string;
  localStorage : gmap string string;
  sidebar : option (gset string);
  mobileMenuBtn : bool;
  dropdown : option (gset string);
  innerWidth : Z }.

(** [classList.toggle(c)] *)
Definition toggleClass (c : string) (cs : gset string) : gset string :=
  if decide (c ∈ cs) then cs ∖ {[c]} else cs ∪ {[c]}.

Definition lightLabel : string := "<span>☀️</span> Light".
Definition darkLabel : string := "<span>🌙</span> Dark".

(** [String(b)], as [localStorage.setItem] stores a boolean. *)
Definition of_bool (b : bool) : string := if b then "true" else "false".

Definition toggleDarkMode (p : Page) : Page :=
  let classes := toggleClass "dark-mode" (bodyClasses p) in
  let isDark := bool_decide ("dark-mode" ∈ classes) in
  {| bodyClasses := classes;
     darkToggle := match darkToggle p with
                   | Some _ => Some (if isDark then lightLabel else darkLabel)
                   | None => None
                   end;
     localStorage := <["darkMode" := of_bool isDark]> (localStorage p);
     sidebar := sidebar p; mobileMenuBtn := mobileMenuBtn p;
     dropdown := dropdown p; innerWidth := innerWidth p |}.

(** The statements at the top of the script: the stored preference is
    applied when it is the string "true". *)
Definition loadPreference (p : Page) : Page :=
  if decide (localStorage p !! "darkMode" = Some "true") then
    {| bodyClasses := bodyClasses p ∪ {["dark-mode"]};
       darkToggle := match darkToggle p with
                     | Some _ => Some lightLabel
                     | None => None
                     end;
       localStorage := localStorage p;
       sidebar := sidebar p; mobileMenuBtn := mobileMenuBtn p;
       dropdown := dropdown p; innerWidth := innerWidth p |}
  else p.

Definition set_sidebar (cs : gset string) (p : Page) : Page :=
  {| bodyClasses := bodyClasses p; darkToggle := darkToggle p;
     localStorage := localStorage p; sidebar := Some cs;
     mobileMenuBtn := mobileMenuBtn p; dropdown := dropdown p;
     innerWidth := innerWidth p |}.

(** The functions below return [None] where the script throws a
    [TypeError], reading a property of [null]. *)
Definition toggleSidebar (p : Page) : option Page :=
  match sidebar p with
  | Some cs => Some (set_sidebar (toggleClass "mobile-open" cs) p)
  | None => None
  end.

(** The click listener of the document; [inSidebar] and [inMenuBtn] say
    where the target of the click is.  The conjunction is evaluated from
    the left and stops at the first false operand. *)
Definition onDocumentClick (inSidebar inMenuBtn : bool) (p : Page) : option Page :=
  if innerWidth p <=? 768 then
    match sidebar p with
    | None => None
    | Some cs =>
        if inSidebar then Some p
        else if mobileMenuBtn p then
          if inMenuBtn then Some p
          else if decide ("mobile-open" ∈ cs)
               then Some (set_sidebar (cs ∖ {["mobile-open"]}) p)
               else Some p
        else None
    end
  else Some p.

(** The resize listener of the window. *)
Definition onResize (p : Page) : option Page :=
  if 768 <? innerWidth p then
    match sidebar p with
    | Some cs => Some (set_sidebar (cs ∖ {["mobile-open"]}) p)
    | None => None
    end
  else Some p.

(** The click listener of the dropdown button, registered when the button
    exists. *)
Definition onDropdownClick (p : Page) : Page :=
  match dropdown p with
  | Some cs =>
      {| bodyClasses := bodyClasses p; darkToggle := darkToggle p;
         localStorage := localStorage p; sidebar := sidebar p;
         mobileMenuBtn := mobileMenuBtn p;
         dropdown := Some (toggleClass "active" cs);
         innerWidth := innerWidth p |}
  | None => p
  end.

End Common.

(** ** Vocabulary of the further properties *)

(** What the render methods of a tick leave alone, apart from the charts
    and the containers they fill. *)
Definition sameOutside (w w' : World) : Prop :=
  permission w' = permission w /\ texts w' = texts w /\ clock w' = clock w /\
  timerState w' = timerState w /\ awaiting w' = awaiting w /\
  loadingShown w' = loadingShown w.

(** The events of a tick in which the five fetches are fulfilled. *)
Definition successEvents (w : World) (m : Maintenance) : list Event :=
  tickRequests
  ++ [ECall "updateVehicleStats"; ECall "updateWeatherInfo";
      ECall "updateTrafficInfo"; ECall "updateMaintenanceAlerts"]
  ++ maintenanceEvents w m ++ [ECall "updateLiveTracking"].

(** The responses of a tick in which all five fetches are fulfilled. *)
Definition fulfilled (v : list Vehicle) (we : Weather) (t : Traffic)
    (m : Maintenance) (k : list Track) : Responses :=
  {| vehicleData := Fulfilled v; weatherData := Fulfilled we;
     trafficData := Fulfilled t; maintenanceData := Fulfilled m;
     trackingData := Fulfilled k |}.

(** What the render methods of a tick add to the trace. *)
Definition renderEvents (w : World) (m : Maintenance) : list Event :=
  [ECall "updateVehicleStats"; ECall "updateWeatherInfo";
   ECall "updateTrafficInfo"; ECall "updateMaintenanceAlerts"]
  ++ maintenanceEvents w m ++ [ECall "updateLiveTracking"].

(** A tick of a busy day: three vehicles, two critical alerts and a warning,
    no tracking record. *)
Definition busyDay : Responses :=
  fulfilled threeVehicles
    {| condition := "Clear"; temperature := 31; humidity := 40; visibility := 10 |}
    {| level := "High"; delay_minutes := 12 # 5; timestamp := "2024-01-01T12:00:00" |}
    twoCritical [].

(** A trend chart grown past its window, as a caller other than the class
    could leave it. *)
Definition fifteenLabels : TrendChart :=
  {| labels := ["1"; "2"; "3"; "4"; "5"; "6"; "7"; "8"; "9"; "10";
                "11"; "12"; "13"; "14"; "15"];
     data := [1; 2; 3; 4; 5; 6; 7; 8; 9; 10; 11; 12; 13; 14; 15]%Q |}.

(** Six tracking records, one more than the container shows. *)
Definition sixTracks : list Track :=
  (fun n => {| employee_id := n; vehicle_number := "MH12"; trip_status := "Active";
               track_timestamp := "2024-01-01T12:00:00" |})
    <$> ["E1"; "E2"; "E3"; "E4"; "E5"; "E6"].

(** None of the elements a tick writes to is in the document, and no chart
    was created. *)
Definition noTargets (w : World) : Prop :=
  (forall id, id ∈ ["weatherInfo"; "trafficInfo"; "maintenanceAlerts"; "liveTracking"] ->
     regions w !! id = None) /\
  (forall id, id ∈ ["totalVehicles"; "activeVehicles"; "idleVehicles";
                    "fleetEfficiency"; "lastRefreshTime"] ->
     texts w !! id = None) /\
  createdCharts (charts w) = [].


(** The integers whose sums and differences are exact on doubles, and which
    [String] prints with all their digits: on them the exact arithmetic of
    the model is that of the language. *)
Definition exactRange (z : Z) : Prop := - 2 ^ 52 < z < 2 ^ 52.

(** An animation from 0 to 42 that starts at time 100. *)
Definition towards42 : Animation :=
  {| element := "totalVehicles"; startValue := Js.Fin 0; startTime := 100;
     targetValue := Js.Fin (inject_Z 42); suffix := "" |}.

(** A suffix that does not go on with the number before it: empty, or
    starting with a character that is neither a decimal digit nor the x of
    a hexadecimal prefix. *)
Definition plainSuffix (sfx : string) : Prop :=
  match sfx with
  | EmptyString => True
  | String c _ => Js.digit 10 c = None /\ c <> "x"%char /\ c <> "X"%char
  end.

(** The characters a positive number can start with. *)
Definition leadingDigit (c : ascii) : Prop :=
  exists d, (0 < d < 10)%N /\ c = pretty_N_char d.

(** A page in light mode on a narrow window, with the sidebar open. *)
Definition lightPage : Common.Page :=
  {| Common.bodyClasses := {["dashboard"]};
     Common.darkToggle := Some Common.darkLabel;
     Common.localStorage := ∅;
     Common.sidebar := Some {["sidebar"; "mobile-open"]};
     Common.mobileMenuBtn := true;
     Common.dropdown := None;
     Common.innerWidth := 600 |}.

(** ** Vocabulary of the amended claims *)


Fixpoint zeros (n : nat) : string :=
  match n with
  | O => ""
  | S n => String "0" (zeros n)
  end.

(** The digit 1 followed by 309 zeros: a number above every double, which
    [parseInt] returns as [Infinity]. *)
Definition overflowingText : string := String "1" (zeros 309).







(** * Properties *)

(** ** Which fields an operation leaves alone *)

Ltac field_simpl :=
  repeat (simpl in *;
    match goal with
    | |- context [match ?x with _ => _ end] => destruct x eqn:?
    | |- context [if ?x then _ else _] => destruct x eqn:?
    end);
  simpl in *; try done.

Lemma showNotification_timerState text type duration w :
  timerState (showNotification text type duration w) = timerState w.
Proof. unfold showNotification, timerState. field_simpl. Qed.

Lemma fetchRealTimeData_call_timerState w :
  timerState (fetchRealTimeData_call w) = timerState w.
Proof. done. Qed.

Lemma animateCounter_timerState id target sfx w :
  timerState (animateCounter id target sfx w) = timerState w.
Proof. unfold animateCounter, timerState. field_simpl. Qed.

Lemma animate_timerState a t w : timerState (animate a t w) = timerState w.
Proof. unfold animate, timerState. field_simpl. Qed.

Lemma fold_left_preserves {A B C} (f : A -> B -> A) (g : A -> C) (l : list B) :
  (forall x b, g (f x b) = g x) -> forall x, g (fold_left f l x) = g x.
Proof.
  intros Hf. induction l as [|b l IH]; intros x; simpl; [done|].
  by rewrite IH, Hf.
Qed.

Lemma animationFrame_timerState t w :
  timerState (animationFrame t w) = timerState w.
Proof.
  unfold animationFrame.
  rewrite (fold_left_preserves _ timerState); [done|].
  intros; apply animate_timerState.
Qed.

Lemma updateVehicleStats_timerState vehicles w :
  timerState (updateVehicleStats vehicles w) = timerState w.
Proof.
  unfold updateVehicleStats. by rewrite !animateCounter_timerState.
Qed.

Lemma updateMaintenanceAlerts_timerState m w :
  timerState (updateMaintenanceAlerts m w) = timerState w.
Proof.
  unfold updateMaintenanceAlerts.
  repeat case_match; try done.
  rewrite (fold_left_preserves _ timerState); [done|].
  intros; apply showNotification_timerState.
Qed.

Lemma updateWeatherInfo_timerState weather w :
  timerState (updateWeatherInfo weather w) = timerState w.
Proof. unfold updateWeatherInfo. by case_match. Qed.

Lemma updateTrafficInfo_timerState traffic w :
  timerState (updateTrafficInfo traffic w) = timerState w.
Proof. unfold updateTrafficInfo. by case_match. Qed.

Lemma updateLiveTracking_timerState tracks w :
  timerState (updateLiveTracking tracks w) = timerState w.
Proof. unfold updateLiveTracking. by repeat case_match. Qed.

Lemma updateCharts_timerState amb w :
  timerState (updateCharts amb w) = timerState w.
Proof. unfold updateCharts. by repeat case_match. Qed.

Lemma updateLastRefreshTime_timerState amb w :
  timerState (updateLastRefreshTime amb w) = timerState w.
Proof. unfold updateLastRefreshTime. by case_match. Qed.

Lemma hideLoadingIndicators_timerState w :
  timerState (hideLoadingIndicators w) = timerState w.
Proof. done. Qed.

Lemma emit_timerState e w : timerState (emit e w) = timerState w.
Proof. done. Qed.

Lemma set_awaiting_timerState n w : timerState (set_awaiting n w) = timerState w.
Proof. done. Qed.

Lemma set_liveIndicator_timerState v w :
  timerState (set_liveIndicator v w) = timerState w.
Proof. done. Qed.

Lemma setupNotifications_timerState w :
  timerState (setupNotifications w) = timerState w.
Proof. unfold setupNotifications. by repeat case_match. Qed.

Lemma initializeCharts_timerState w :
  timerState (initializeCharts w) = timerState w.
Proof. reflexivity. Qed.

Lemma set_clock_timerState t w : timerState (set_clock t w) = timerState w.
Proof. done. Qed.

Create Rewrite HintDb timer_frame.
#[local] Hint Rewrite
  showNotification_timerState fetchRealTimeData_call_timerState
  animateCounter_timerState animationFrame_timerState
  updateVehicleStats_timerState updateMaintenanceAlerts_timerState
  updateWeatherInfo_timerState updateTrafficInfo_timerState
  updateLiveTracking_timerState updateCharts_timerState
  updateLastRefreshTime_timerState hideLoadingIndicators_timerState
  emit_timerState set_awaiting_timerState set_liveIndicator_timerState
  set_clock_timerState setupNotifications_timerState
  initializeCharts_timerState : timer_frame.

Lemma fetchRealTimeData_resume_timerState r amb w :
  timerState (fetchRealTimeData_resume r amb w) = timerState w.
Proof.
  unfold fetchRealTimeData_resume.
  destruct (Promise_all r) as [[[[[v we] t] m] k]|];
    by autorewrite with timer_frame.
Qed.

Lemma timerCallback_timerState w : timerState (timerCallback w) = timerState w.
Proof. unfold timerCallback. by case_match. Qed.

Lemma refreshAllData_timerState w : timerState (refreshAllData w) = timerState w.
Proof.
  unfold refreshAllData.
  by rewrite fetchRealTimeData_call_timerState, showNotification_timerState.
Qed.

(** ** The timer and its handle *)

Lemma scheduled_timerState w w' :
  timerState w' = timerState w -> scheduled w -> scheduled w'.
Proof. unfold scheduled, timerState. intros [= _ _ -> -> _]. done. Qed.

Lemma startLiveUpdates_spec w :
  scheduled w ->
  let w' := startLiveUpdates w in
  updateTimer w' = Some (nextHandle w) /\
  timers w' = {[nextHandle w := updateInterval w]} /\
  awaiting w' = S (awaiting w) /\
  trace w' =
    trace w ++ from_option (fun old => [EClearInterval old]) [] (updateTimer w)
      ++ [ESetInterval (nextHandle w) (updateInterval w)] ++ tickRequests.
Proof.
  unfold scheduled, startLiveUpdates. destruct (updateTimer w) as [old|]; simpl.
  - intros [delay ->]. rewrite delete_singleton_eq, insert_empty.
    repeat split. by rewrite <- !app_assoc.
  - intros ->. rewrite insert_empty. repeat split. by rewrite <- !app_assoc.
Qed.

Lemma stopLiveUpdates_spec w :
  scheduled w ->
  let w' := stopLiveUpdates w in
  updateTimer w' = None /\ timers w' = ∅.
Proof.
  unfold scheduled, stopLiveUpdates. destruct (updateTimer w) as [old|] eqn:E; simpl.
  - intros [delay ->]. by rewrite delete_singleton_eq.
  - by rewrite E.
Qed.

Lemma startLiveUpdates_scheduled w : scheduled w -> scheduled (startLiveUpdates w).
Proof.
  intros H. destruct (startLiveUpdates_spec w H) as (Hid & Ht & _).
  unfold scheduled. rewrite Hid. eauto.
Qed.

Lemma stopLiveUpdates_scheduled w : scheduled w -> scheduled (stopLiveUpdates w).
Proof.
  intros H. destruct (stopLiveUpdates_spec w H) as (Hid & Ht).
  unfold scheduled. by rewrite Hid.
Qed.

Lemma restartLiveUpdates_scheduled w :
  scheduled w -> scheduled (restartLiveUpdates w).
Proof.
  intros H. unfold restartLiveUpdates.
  case_match; auto using startLiveUpdates_scheduled, stopLiveUpdates_scheduled.
Qed.

Lemma toggleLiveMode_scheduled enabled w :
  scheduled w -> scheduled (toggleLiveMode enabled w).
Proof.
  intros H. unfold toggleLiveMode.
  assert (scheduled (set_isLiveMode enabled w)) as H' by done.
  destruct enabled.
  - apply startLiveUpdates_scheduled in H'.
    eapply scheduled_timerState; [|exact H'].
    rewrite showNotification_timerState.
    case_match; by autorewrite with timer_frame.
  - apply stopLiveUpdates_scheduled in H'.
    eapply scheduled_timerState; [|exact H'].
    rewrite showNotification_timerState.
    repeat case_match; by autorewrite with timer_frame.
Qed.

Lemma onIntervalChange_scheduled value w :
  scheduled w -> scheduled (onIntervalChange value w).
Proof.
  intros H. unfold onIntervalChange.
  set (w1 := set_updateInterval _ w).
  assert (scheduled w1) as H1 by done.
  case_match; auto using restartLiveUpdates_scheduled.
Qed.

Lemma step_scheduled w w' : step w w' -> scheduled w -> scheduled w'.
Proof.
  destruct 1; intros Hs;
    auto using toggleLiveMode_scheduled, startLiveUpdates_scheduled,
      stopLiveUpdates_scheduled, restartLiveUpdates_scheduled,
      onIntervalChange_scheduled;
    (eapply scheduled_timerState; [|exact Hs]);
    auto using refreshAllData_timerState, timerCallback_timerState,
      fetchRealTimeData_resume_timerState, animationFrame_timerState.
Qed.

Lemma construct_scheduled w0 : loaded w0 -> scheduled (construct w0).
Proof.
  intros (Ht & _). unfold construct, init, setupEventListeners.
  eapply scheduled_timerState; [apply setupNotifications_timerState|].
  apply startLiveUpdates_scheduled.
  eapply scheduled_timerState; [apply initializeCharts_timerState|].
  exact Ht.
Qed.

Lemma reachable_scheduled w : reachable w -> scheduled w.
Proof.
  intros (w0 & Hl & Hr). apply construct_scheduled in Hl.
  induction Hr; eauto using step_scheduled.
Qed.

Lemma examplePage_loaded : loaded examplePage.
Proof. by repeat split. Qed.

Lemma examplePage_reachable : reachable (construct examplePage).
Proof. exists examplePage. split; [apply examplePage_loaded | apply rtc_refl]. Qed.

(** C2, as stated, fails on the state construction leaves: [init] starts the
    timer while the live-mode flag is still false. *)
Lemma liveModeInvariant_fails_after_construction :
  reachable (construct examplePage) /\ ~ liveModeInvariant (construct examplePage).
Proof.
  split; [apply examplePage_reachable|].
  intros [_ H]. specialize (H eq_refl). vm_compute in H. discriminate.
Qed.

(** C2 (amended): in every state the page can reach, the handle is set
    exactly when a repeating timer is scheduled, and that timer is the only
    one; while the live-mode flag is false the timer may still run, but its
    callback starts no tick. *)
Theorem reachable_timer_invariant w :
  reachable w ->
  scheduled w /\
  (is_Some (updateTimer w) <-> timers w <> ∅) /\
  (size (timers w) <= 1)%nat /\
  (isLiveMode w = false -> timerCallback w = w).
Proof.
  intros Hs%reachable_scheduled. split; [done|].
  unfold scheduled in Hs. repeat split.
  - intros [id E]. rewrite E in Hs. destruct Hs as [delay ->].
    apply insert_non_empty.
  - destruct (updateTimer w); [by eauto|]. by intros [].
  - destruct (updateTimer w).
    + destruct Hs as [delay ->]. rewrite map_size_singleton. lia.
    + rewrite Hs, map_size_empty. lia.
  - unfold timerCallback. by intros ->.
Qed.

Example construct_examplePage :
  isLiveMode (construct examplePage) = false /\
  updateTimer (construct examplePage) = Some 1%positive /\
  timers (construct examplePage) = {[1%positive := Js.Fin 30000%Q]}.
Proof. repeat split. Qed.

Lemma reachable_timer_invariant_witness :
  reachable (construct examplePage) /\
  scheduled (construct examplePage) /\
  (size (timers (construct examplePage)) <= 1)%nat /\
  (isLiveMode (construct examplePage) = false ->
   timerCallback (construct examplePage) = construct examplePage).
Proof.
  split; [apply examplePage_reachable|].
  destruct (reachable_timer_invariant _ examplePage_reachable)
    as (H1 & _ & H3 & H4).
  split; [exact H1|]. split; [exact H3|exact H4].
Defined.

(** C3: whatever timer was there before, [startLiveUpdates] leaves exactly
    one scheduled timer, with the configured interval (valid or not) as its
    period and the handle naming it, after clearing the old one; and it
    starts exactly one tick at once: one more call of [fetchRealTimeData]
    is in flight, its five requests issued. *)
Theorem startLiveUpdates_one_timer_one_tick w :
  scheduled w ->
  let w' := startLiveUpdates w in
  (exists id, updateTimer w' = Some id /\
              timers w' = {[id := updateInterval w]}) /\
  size (timers w') = 1%nat /\
  awaiting w' = S (awaiting w) /\
  trace w' =
    trace w ++ from_option (fun old => [EClearInterval old]) [] (updateTimer w)
      ++ [ESetInterval (nextHandle w) (updateInterval w)] ++ tickRequests.
Proof.
  intros Hs. destruct (startLiveUpdates_spec w Hs) as (Hid & Ht & Ha & Htr).
  cbv zeta. repeat split; [by eauto | | done | done].
  by rewrite Ht, map_size_singleton.
Qed.

Example startLiveUpdates_examplePage :
  timers (startLiveUpdates (construct examplePage))
    = {[2%positive := Js.Fin 30000%Q]} /\
  awaiting (startLiveUpdates (construct examplePage)) = 2%nat.
Proof. split; reflexivity. Qed.

Lemma startLiveUpdates_one_timer_one_tick_witness :
  scheduled (construct examplePage) /\
  size (timers (startLiveUpdates (construct examplePage))) = 1%nat /\
  awaiting (startLiveUpdates (construct examplePage))
    = S (awaiting (construct examplePage)).
Proof.
  assert (scheduled (construct examplePage)) as Hs.
  { vm_compute. eexists. reflexivity. }
  split; [exact Hs|].
  destruct (startLiveUpdates_one_timer_one_tick (construct examplePage) Hs)
    as (_ & H2 & H3 & _).
  split; [exact H2|exact H3].
Defined.

Lemma stopLiveUpdates_idempotent w :
  stopLiveUpdates (stopLiveUpdates w) = stopLiveUpdates w.
Proof.
  unfold stopLiveUpdates at 2 3. destruct (updateTimer w) as [id|] eqn:E.
  - reflexivity.
  - unfold stopLiveUpdates. by rewrite E.
Qed.

(** C4: [stopLiveUpdates] is idempotent.  A second call in a row changes
    nothing at all (no timer call is even made), and after the first one the
    handle is null and no timer is left. *)
Theorem stopLiveUpdates_twice w :
  scheduled w ->
  stopLiveUpdates (stopLiveUpdates w) = stopLiveUpdates w /\
  updateTimer (stopLiveUpdates w) = None /\
  timers (stopLiveUpdates w) = ∅.
Proof.
  intros Hs. split; [apply stopLiveUpdates_idempotent|].
  apply (stopLiveUpdates_spec w Hs).
Qed.

Example stopLiveUpdates_examplePage :
  trace (stopLiveUpdates (stopLiveUpdates (construct examplePage))) =
    [ESetInterval 1 (Js.Fin 30000%Q)] ++ tickRequests ++ [ERequestPermission]
      ++ [EClearInterval 1].
Proof. reflexivity. Qed.

Lemma stopLiveUpdates_twice_witness :
  scheduled (construct examplePage) /\
  stopLiveUpdates (stopLiveUpdates (construct examplePage))
    = stopLiveUpdates (construct examplePage) /\
  updateTimer (stopLiveUpdates (construct examplePage)) = None /\
  timers (stopLiveUpdates (construct examplePage)) = ∅.
Proof.
  assert (scheduled (construct examplePage)) as Hs.
  { vm_compute. eexists. reflexivity. }
  split; [exact Hs|].
  exact (stopLiveUpdates_twice (construct examplePage) Hs).
Defined.


Example onIntervalChange_examplePage :
  timers (onIntervalChange "10" (toggleLiveMode true (construct examplePage)))
    = {[3%positive := Js.Fin 10000%Q]} /\
  timers (onIntervalChange "10" (construct examplePage))
    = {[1%positive := Js.Fin 30000%Q]} /\
  updateInterval (onIntervalChange "10" (construct examplePage))
    = Js.Fin 10000%Q.
Proof. repeat split. Qed.


(** ** A tick whose fetches fail *)

Lemma Promise_all_rejected r : anyRejected r -> Promise_all r = Rejected.
Proof.
  unfold anyRejected, Promise_all.
  intros [-> | [-> | [-> | [-> | ->]]]]; by repeat case_match.
Qed.

(** C1: when one of the five fetches of a tick is rejected, no render
    method is called in that tick (and the document, the charts and the
    pending animations are as before), one toast of type error is shown and
    no other, the loading indicators end up hidden, and the timer, its
    handle and the live-mode flag are untouched, so the timer goes on
    firing and, in live mode, its next firing starts a tick. *)
Theorem fetchRealTimeData_rejected r amb w :
  anyRejected r ->
  let w' := fetchRealTimeData r amb w in
  let events := tickRequests ++ failureEvents (permission w) in
  trace w' = trace w ++ events /\
  List.filter isRenderCall events = [] /\
  length (List.filter isErrorToast events) = 1%nat /\
  loadingShown w' = false /\
  timerState w' = timerState w /\
  (isLiveMode w = true -> timerCallback w' = fetchRealTimeData_call w') /\
  (texts w', regions w', charts w', frameCallbacks w')
    = (texts w, regions w, charts w, frameCallbacks w) /\
  awaiting w' = awaiting w.
Proof.
  intros Hr w' events. subst w' events.
  unfold fetchRealTimeData, fetchRealTimeData_resume.
  rewrite (Promise_all_rejected r Hr).
  unfold showNotification, failureEvents, timerCallback. simpl.
  destruct (permission w) as [[]|]; simpl; rewrite <- ?app_assoc;
    repeat split; try done; by intros ->.
Qed.

Lemma fetchRealTimeData_rejected_witness :
  anyRejected oneRejected /\
  trace (fetchRealTimeData oneRejected noon examplePage)
    = trace examplePage ++ tickRequests ++ failureEvents (permission examplePage) /\
  loadingShown (fetchRealTimeData oneRejected noon examplePage) = false /\
  timerState (fetchRealTimeData oneRejected noon examplePage) = timerState examplePage.
Proof.
  assert (anyRejected oneRejected) as Hr.
  { right; right; left. reflexivity. }
  split; [exact Hr|].
  destruct (fetchRealTimeData_rejected oneRejected noon examplePage Hr)
    as (H1 & _ & _ & H4 & H5 & _).
  split; [exact H1|]. split; [exact H4|exact H5].
Defined.

(** ** The window of the trend chart *)

Lemma tail_snoc_length {A} (l : list A) x :
  length (tail (l ++ [x])) = length l.
Proof. destruct l; simpl; [done|]. rewrite length_app. simpl. lia. Qed.

(** C5: a series of at most ten points has at most ten points after an
    update, labels and values alike; on a series of ten the new point goes
    to the end and the oldest one, the first, is the one dropped, the others
    keeping their order. *)
Theorem updateCarbonTrendChart_window timeLabel r chart :
  length (labels chart) = length (data chart) ->
  (length (labels chart) <= 10)%nat ->
  let chart' := updateCarbonTrendChart timeLabel r chart in
  length (labels chart') = length (data chart') /\
  (length (labels chart') <= 10)%nat /\
  (length (labels chart) = 10%nat ->
     labels chart' = tail (labels chart) ++ [timeLabel] /\
     data chart' = tail (data chart) ++ [(r * 100 + 50)%Q]) /\
  ((length (labels chart) < 10)%nat ->
     labels chart' = labels chart ++ [timeLabel] /\
     data chart' = data chart ++ [(r * 100 + 50)%Q]).
Proof.
  intros Heq Hle chart'. subst chart'. unfold updateCarbonTrendChart.
  destruct (Nat.ltb_spec 10 (length (labels chart ++ [timeLabel]))) as [Hlt|Hge];
    rewrite length_app in *; simpl in *.
  - rewrite !tail_snoc_length. repeat split; try lia.
    + destruct (labels chart); simpl in *; [lia|done].
    + destruct (data chart); simpl in *; [lia|done].
  - rewrite !length_app. simpl. repeat split; lia.
Qed.

Example updateCarbonTrendChart_tenPoints :
  updateCarbonTrendChart "11" (1 # 2) tenPoints =
    {| labels := ["2"; "3"; "4"; "5"; "6"; "7"; "8"; "9"; "10"; "11"];
       data := [2; 3; 4; 5; 6; 7; 8; 9; 10; (1 # 2) * 100 + 50]%Q |}.
Proof. reflexivity. Qed.

Lemma updateCarbonTrendChart_window_witness :
  length (labels tenPoints) = length (data tenPoints) /\
  (length (labels tenPoints) <= 10)%nat /\
  (length (labels (updateCarbonTrendChart "11" (1 # 2) tenPoints)) <= 10)%nat /\
  labels (updateCarbonTrendChart "11" (1 # 2) tenPoints)
    = tail (labels tenPoints) ++ ["11"].
Proof.
  assert (length (labels tenPoints) = length (data tenPoints)) as H1 by reflexivity.
  assert (length (labels tenPoints) <= 10)%nat as H2 by (simpl; lia).
  split; [exact H1|]. split; [exact H2|].
  destruct (updateCarbonTrendChart_window "11" (1 # 2) tenPoints H1 H2)
    as (_ & H3 & H4 & _).
  split; [exact H3|]. exact (proj1 (H4 eq_refl)).
Defined.

(** ** Maintenance alerts *)

Lemma showNotification_error text duration w :
  let w' := showNotification text "error" duration w in
  trace w' = trace w ++ EToast text "error" duration
               :: match permission w with
                  | Some PermGranted => [ENotification text]
                  | _ => []
                  end /\
  regions w' = regions w /\ permission w' = permission w.
Proof.
  unfold showNotification. simpl.
  destruct (permission w) as [[]|] eqn:E; simpl; by rewrite <- ?app_assoc.
Qed.

Lemma notify_each_critical l : forall w,
  let w' := fold_left
              (fun w alert =>
                 showNotification ("Critical: " +:+ message alert) "error" 10000 w)
              l w in
  trace w' = trace w ++ criticalEvents (permission w) l /\
  regions w' = regions w /\ permission w' = permission w.
Proof.
  induction l as [|alert l IH]; intros w; simpl.
  - by rewrite app_nil_r.
  - destruct (IH (showNotification ("Critical: " +:+ message alert) "error" 10000 w))
      as (Ht & Hr & Hp).
    destruct (showNotification_error ("Critical: " +:+ message alert) 10000 w)
      as (Ht1 & Hr1 & Hp1).
    rewrite Ht, Hr, Hp, Ht1, Hr1, Hp1. by rewrite <- app_assoc.
Qed.

Lemma criticalEvents_errors p l :
  length (List.filter isErrorToast (criticalEvents p l)) = length l.
Proof.
  induction l as [|alert l IH]; simpl; [done|].
  destruct p as [[]|]; simpl; by rewrite IH.
Qed.

(** C7, as stated for every payload, fails on a page without the
    [maintenanceAlerts] container: the method then returns at its guard,
    before the notifications. *)
Lemma twoCritical_without_container :
  (exists all, alerts twoCritical = Some all /\
               length (List.filter critical all) = 2%nat) /\
  trace (updateMaintenanceAlerts twoCritical bareDocument)
    = [ECall "updateMaintenanceAlerts"] /\
  ~ twoCriticalShown twoCritical bareDocument.
Proof.
  split; [eexists; split; reflexivity|]. split; [reflexivity|].
  intros (events & warnings & _ & _ & Hshown). vm_compute in Hshown. discriminate.
Qed.

(** C7 (amended): on a payload with exactly two critical alerts, when the
    document has the [maintenanceAlerts] container the call shows exactly
    two toasts of type error, one per critical alert and in their order, and
    writes the summary with a critical count of two; when the container is
    missing nothing is written and no notification is made. *)
Theorem updateMaintenanceAlerts_two_critical m all w :
  alerts m = Some all ->
  length (List.filter critical all) = 2%nat ->
  let w' := updateMaintenanceAlerts m w in
  (is_Some (regions w !! "maintenanceAlerts") ->
     let events := criticalEvents (permission w) (List.filter critical all) in
     trace w' = trace w ++ ECall "updateMaintenanceAlerts" :: events /\
     length (List.filter isErrorToast events) = 2%nat /\
     regions w' !! "maintenanceAlerts"
       = Some (Some (AlertsSummary 2 (length (List.filter warning all)))) /\
     twoCriticalShown m w) /\
  (regions w !! "maintenanceAlerts" = None ->
     trace w' = trace w ++ [ECall "updateMaintenanceAlerts"] /\
     regions w' = regions w).
Proof.
  intros Hall Htwo w'.
  assert (is_Some (regions w !! "maintenanceAlerts") ->
     let events := criticalEvents (permission w) (List.filter critical all) in
     trace w' = trace w ++ ECall "updateMaintenanceAlerts" :: events /\
     length (List.filter isErrorToast events) = 2%nat /\
     regions w' !! "maintenanceAlerts"
       = Some (Some (AlertsSummary 2 (length (List.filter warning all))))) as Hpresent.
  { intros [view Hview] events. subst w' events.
    unfold updateMaintenanceAlerts.
    replace (regions (emit (ECall "updateMaintenanceAlerts") w)) with (regions w)
      by reflexivity.
    rewrite Hview, Hall.
    match goal with
    | |- context [fold_left ?f ?l ?w0] =>
        destruct (notify_each_critical l w0) as (Ht & Hr & _)
    end.
    rewrite Ht, Hr, criticalEvents_errors, Htwo.
    unfold render, emit. simpl. rewrite lookup_insert_eq.
    repeat split. by rewrite <- app_assoc. }
  split.
  - intros Hsome. destruct (Hpresent Hsome) as (Ht & Hn & Hr).
    repeat split; try done.
    unfold twoCriticalShown. fold w'. eexists _, _. eauto.
  - intros Hnone. subst w'. unfold updateMaintenanceAlerts.
    replace (regions (emit (ECall "updateMaintenanceAlerts") w)) with (regions w)
      by reflexivity.
    by rewrite Hnone.
Qed.

Lemma updateMaintenanceAlerts_two_critical_witness :
  alerts twoCritical
    = Some [ {| urgency := "Critical"; message := "Brake wear" |};
             {| urgency := "Warning"; message := "Oil change due" |};
             {| urgency := "Critical"; message := "Engine overheating" |} ] /\
  is_Some (regions examplePage !! "maintenanceAlerts") /\
  twoCriticalShown twoCritical examplePage /\
  regions (updateMaintenanceAlerts twoCritical examplePage) !! "maintenanceAlerts"
    = Some (Some (AlertsSummary 2 1)).
Proof.
  split; [reflexivity|].
  assert (is_Some (regions examplePage !! "maintenanceAlerts")) as Hsome.
  { eexists. reflexivity. }
  split; [exact Hsome|].
  destruct (updateMaintenanceAlerts_two_critical twoCritical _ examplePage
              eq_refl eq_refl) as (H & _).
  destruct (H Hsome) as (_ & _ & H3 & H4).
  split; [exact H4|exact H3].
Defined.

Example updateMaintenanceAlerts_examplePage :
  trace (updateMaintenanceAlerts twoCritical examplePage)
    = [ECall "updateMaintenanceAlerts";
       EToast "Critical: Brake wear" "error" 10000;
       EToast "Critical: Engine overheating" "error" 10000].
Proof. reflexivity. Qed.

(** ** The counter animation *)

Section Easing.
Local Open Scope Q_scope.

Lemma pow4 x : x ^ 4 == x * x * (x * x).
Proof. simpl. ring. Qed.

#[local] Instance easeOutQuart_proper : Proper (Qeq ==> Qeq) easeOutQuart.
Proof. intros p q E. unfold easeOutQuart. by rewrite E. Qed.

Lemma easeOutQuart_0 : easeOutQuart 0 == 0.
Proof. reflexivity. Qed.

Lemma easeOutQuart_1 : easeOutQuart 1 == 1.
Proof. reflexivity. Qed.

(** The easing rises up to the end of the animation. *)
Lemma easeOutQuart_mono p q :
  p <= q -> q <= 1 -> easeOutQuart p <= easeOutQuart q.
Proof.
  intros H1 H2. unfold easeOutQuart. rewrite !pow4.
  assert (0 <= 1 - q) by lra. assert (1 - q <= 1 - p) by lra.
  set (a := 1 - q) in *. set (b := 1 - p) in *.
  assert (a * a <= b * b) by nra.
  assert (0 <= a * a) by nra.
  nra.
Qed.

Lemma progress_le_1 a t : progress a t <= 1.
Proof. apply Q.le_min_r. Qed.

Lemma progress_mono a t t' : t <= t' -> progress a t <= progress a t'.
Proof.
  intros H. unfold progress. apply Q.min_le_compat_r.
  apply Qmult_le_compat_r; [lra|done].
Qed.

Lemma progress_nonneg a t : startTime a <= t -> 0 <= progress a t.
Proof.
  intros H. unfold progress. apply Q.min_glb; [|done].
  apply Qle_shift_div_l; [done|lra].
Qed.

Lemma progress_done a t : startTime a + 1000 <= t -> 1 <= progress a t.
Proof.
  intros H. unfold progress. apply Q.min_glb; [|lra].
  apply Qle_shift_div_l; [done|lra].
Qed.

Lemma Qfloor_half z : Qfloor (inject_Z z + (1 # 2)) = z.
Proof.
  pose proof (Qfloor_le (inject_Z z + (1 # 2))) as Hle.
  pose proof (Qlt_floor (inject_Z z + (1 # 2))) as Hlt.
  set (f := Qfloor _) in *.
  assert (inject_Z f < inject_Z (z + 1)) as H1.
  { rewrite inject_Z_plus. eapply Qle_lt_trans; [exact Hle|].
    change (inject_Z 1) with 1. lra. }
  assert (inject_Z z < inject_Z (f + 1)) as H2.
  { eapply Qle_lt_trans; [|exact Hlt]. lra. }
  rewrite <- Zlt_Qlt in H1, H2. lia.
Qed.

Lemma counterValue_start s q p : p == 0 -> counterValue s q p = s.
Proof.
  intros E. unfold counterValue. rewrite <- (Qfloor_half s) at 3.
  apply Qfloor_comp. rewrite E, easeOutQuart_0. ring.
Qed.

Lemma counterValue_end s z p : p == 1 -> counterValue s (inject_Z z) p = z.
Proof.
  intros E. unfold counterValue. rewrite <- (Qfloor_half z) at 2.
  apply Qfloor_comp. rewrite E, easeOutQuart_1. ring.
Qed.

Lemma counterValue_mono s q p p' :
  inject_Z s <= q -> p <= p' -> p' <= 1 ->
  (counterValue s q p <= counterValue s q p')%Z.
Proof.
  intros Hq Hp Hp'. unfold counterValue. apply Qfloor_resp_le.
  pose proof (easeOutQuart_mono p p' Hp Hp').
  assert ((q - inject_Z s) * easeOutQuart p <= (q - inject_Z s) * easeOutQuart p').
  { rewrite !(Qmult_comm (q - inject_Z s)). apply Qmult_le_compat_r; [done|lra]. }
  lra.
Qed.

Lemma counterValue_bounds s z p :
  (s <= z)%Z -> 0 <= p -> p <= 1 ->
  (s <= counterValue s (inject_Z z) p <= z)%Z.
Proof.
  intros Hz H0 H1. rewrite Zle_Qle in Hz. split.
  - etransitivity; [|apply (counterValue_mono s (inject_Z z) 0 p); done].
    by rewrite counterValue_start.
  - etransitivity; [apply (counterValue_mono s (inject_Z z) p 1); try done; lra|].
    by rewrite counterValue_end.
Qed.

Lemma currentValue_finite a s q t :
  startValue a = Js.Fin s -> targetValue a = Js.Fin q ->
  currentValue a t = Js.Fin (counterValue s q (progress a t)).
Proof. unfold currentValue. by intros -> ->. Qed.

End Easing.

Lemma animate_spec a t w :
  texts (animate a t w) = <[element a := frameText a t]> (texts w) /\
  frameCallbacks (animate a t w)
    = frameCallbacks w ++ (if running a t then [a] else []).
Proof.
  unfold animate, running, frameText.
  destruct (Qlt_le_dec (progress a t) 1); simpl; by rewrite ?app_nil_r.
Qed.

Lemma animationFrame_idle t w :
  frameCallbacks w = [] ->
  texts (animationFrame t w) = texts w /\ frameCallbacks (animationFrame t w) = [].
Proof. unfold animationFrame. by intros ->. Qed.

Lemma animationFrame_single a t w :
  frameCallbacks w = [a] ->
  texts (animationFrame t w) = <[element a := frameText a t]> (texts w) /\
  frameCallbacks (animationFrame t w) = if running a t then [a] else [].
Proof.
  unfold animationFrame. intros ->. simpl.
  by destruct (animate_spec a t (set_frameCallbacks [] w)) as [-> ->].
Qed.

Lemma running_false a t : running a t = false -> (progress a t == 1)%Q.
Proof.
  unfold running. destruct (Qlt_le_dec (progress a t) 1); [done|].
  intros _. apply Qle_antisym; [apply progress_le_1|done].
Qed.

Lemma running_true a t : running a t = true -> (progress a t < 1)%Q.
Proof. unfold running. by destruct (Qlt_le_dec (progress a t) 1). Qed.

(** One animation alone, with a finite start and an integer target: each
    frame shows the number for its timestamp, also after the last frame of
    the animation, which leaves the target in place. *)
Lemma single_animation a s z :
  startValue a = Js.Fin s -> targetValue a = Js.Fin (inject_Z z) ->
  let shown t :=
    Some (pretty (counterValue s (inject_Z z) (progress a t)) +:+ suffix a) in
  forall ts w,
    StronglySorted Qle ts ->
    frameCallbacks w = [a] \/
    (frameCallbacks w = [] /\ texts w !! element a = Some (pretty z +:+ suffix a) /\
     Forall (fun t => 1 <= progress a t)%Q ts) ->
    textAfterFrames (element a) ts w = shown <$> ts /\
    (frameCallbacks w = [] \/ Exists (fun t => 1 <= progress a t)%Q ts ->
       texts (runFrames ts w) !! element a = Some (pretty z +:+ suffix a) /\
       frameCallbacks (runFrames ts w) = []).
Proof.
  intros Hs Hz shown ts.
  assert (forall t, frameText a t
            = pretty (counterValue s (inject_Z z) (progress a t)) +:+ suffix a)
    as Htext.
  { intros t. unfold frameText.
    by rewrite (currentValue_finite a s (inject_Z z) t Hs Hz). }
  induction ts as [|t ts IH]; intros w Hsorted Hw.
  - simpl. split; [done|]. intros [Hq|Hex]; [|by apply Exists_nil in Hex].
    destruct Hw as [Hw|(_ & Hw & _)]; [congruence|done].
  - apply StronglySorted_inv in Hsorted as [Hsorted Hle]. simpl.
    destruct Hw as [Hw|(Hq & Hw & Hdone)].
    + destruct (animationFrame_single a t w Hw) as [Ht Hc].
      destruct (running a t) eqn:Hrun.
      * destruct (IH (animationFrame t w) Hsorted (or_introl Hc)) as [IH1 IH2].
        rewrite IH1, Ht, lookup_insert_eq, Htext. split; [done|].
        intros [Hq|Hex]; [congruence|]. apply IH2. right.
        apply Exists_cons in Hex as [Hex|Hex]; [|done].
        apply running_true in Hrun. by apply Qlt_not_le in Hrun.
      * apply running_false in Hrun.
        assert (texts (animationFrame t w) !! element a = Some (pretty z +:+ suffix a))
          as Hfinal.
        { by rewrite Ht, lookup_insert_eq, Htext, counterValue_end. }
        assert (Forall (fun t' => 1 <= progress a t')%Q ts) as Hrest.
        { eapply Forall_impl; [exact Hle|]. intros t' Htt'. simpl in Htt'.
          rewrite <- Hrun. by apply progress_mono. }
        destruct (IH (animationFrame t w) Hsorted
                    (or_intror (conj Hc (conj Hfinal Hrest)))) as [IH1 IH2].
        rewrite IH1. split; [|intros _; apply IH2; by left].
        f_equal. by rewrite Ht, lookup_insert_eq, Htext.
    + destruct (animationFrame_idle t w Hq) as [Ht Hc].
      apply Forall_cons in Hdone as [Hdone1 Hdone].
      assert (progress a t == 1)%Q as Hone.
      { apply Qle_antisym; [apply progress_le_1|done]. }
      destruct (IH (animationFrame t w) Hsorted
                  (or_intror
                     (conj Hc (conj (eq_trans (f_equal (.!! element a) Ht) Hw)
                                 Hdone))))
        as [IH1 IH2].
      rewrite IH1. split; [|intros _; apply IH2; by left].
      f_equal. rewrite Ht, Hw. unfold shown. by rewrite counterValue_end.
Qed.


Lemma StronglySorted_map {A B} (R : relation A) (R' : relation B) (f : A -> B) l :
  (forall x y, R x y -> R' (f x) (f y)) ->
  StronglySorted R l -> StronglySorted R' (f <$> l).
Proof.
  intros Hf. induction 1 as [|x l Hs IH Hx]; simpl; constructor; [done|].
  apply Forall_fmap. eapply Forall_impl; [exact Hx|]. intros y. apply Hf.
Qed.

(** In a sorted list the last element has what some element has, when
    that is kept going up. *)
Lemma sorted_last_Exists {A} (R : relation A) (P : A -> Prop) l :
  (forall x y, R x y -> P x -> P y) ->
  StronglySorted R l -> Exists P l -> exists x, last l = Some x /\ P x.
Proof.
  intros Hup. induction 1 as [|x l Hs IH Hx]; intros Hex.
  - by apply Exists_nil in Hex.
  - apply Exists_cons in Hex. rewrite last_cons.
    destruct l as [|y l].
    + destruct Hex as [Hex|Hex]; [eauto|by apply Exists_nil in Hex].
    + assert (Exists P (y :: l)) as Hex'.
      { destruct Hex as [Hex|Hex]; [|done]. apply Exists_cons_hd.
        apply Forall_cons in Hx as [Hxy _]. eauto. }
      destruct (IH Hex') as (z & -> & Hz). eauto.
Qed.



Example animateCounter_frames :
  textAfterFrames "totalVehicles" [16; 500; 1000; 1016]%Q
    (animateCounter "totalVehicles" (Js.Fin 42%Q) "" examplePage)
  = [Some "3"; Some "39"; Some "42"; Some "42"].
Proof. reflexivity. Qed.


(** ** Several animations at once *)

Lemma fold_animate t l : forall w,
  frameCallbacks (fold_left (fun w a => animate a t w) l w)
    = frameCallbacks w ++ List.filter (fun a => running a t) l /\
  texts (fold_left (fun w a => animate a t w) l w)
    = fold_left (fun m a => <[element a := frameText a t]> m) l (texts w).
Proof.
  induction l as [|a l IH]; intros w; simpl.
  - by rewrite app_nil_r.
  - destruct (IH (animate a t w)) as [-> ->].
    destruct (animate_spec a t w) as [-> ->].
    split; [|done]. destruct (running a t); simpl; by rewrite <- ?app_assoc, ?app_nil_r.
Qed.

Lemma animationFrame_spec t w :
  frameCallbacks (animationFrame t w)
    = List.filter (fun a => running a t) (frameCallbacks w) /\
  texts (animationFrame t w)
    = fold_left (fun m a => <[element a := frameText a t]> m)
        (frameCallbacks w) (texts w).
Proof.
  unfold animationFrame.
  by destruct (fold_animate t (frameCallbacks w) (set_frameCallbacks [] w)) as [-> ->].
Qed.







(** ** Vehicle statistics *)

Lemma animateCounter_spec id target sfx w :
  let w' := animateCounter id target sfx w in
  frameCallbacks w' = frameCallbacks w ++ counterAnimation w id target sfx /\
  texts w' = texts w /\ clock w' = clock w /\ trace w' = trace w.
Proof.
  unfold animateCounter, counterAnimation.
  destruct (texts w !! id); simpl; by rewrite ?app_nil_r.
Qed.

Lemma counterAnimation_ext w w' id target sfx :
  texts w' = texts w -> clock w' = clock w ->
  counterAnimation w' id target sfx = counterAnimation w id target sfx.
Proof. unfold counterAnimation. by intros -> ->. Qed.

Lemma updateVehicleStats_spec vehicles w :
  let w' := updateVehicleStats vehicles w in
  frameCallbacks w'
    = frameCallbacks w ++ counterAnimations w (vehicleCounters vehicles) /\
  texts w' = texts w /\ clock w' = clock w /\
  trace w' = trace w ++ [ECall "updateVehicleStats"].
Proof.
  unfold updateVehicleStats, counterAnimations, vehicleCounters. simpl.
  set (w0 := emit (ECall "updateVehicleStats") w).
  set (n1 := Js.of_nat (length vehicles)).
  set (n2 := Js.of_nat (length (List.filter in_transit vehicles))).
  set (n3 := Js.of_nat (length (List.filter available vehicles))).
  set (n4 := Js.of_int _).
  destruct (animateCounter_spec "totalVehicles" n1 "" w0) as (Hq1 & Ht1 & Hc1 & Hr1).
  set (w1 := animateCounter "totalVehicles" n1 "" w0) in *.
  destruct (animateCounter_spec "activeVehicles" n2 "" w1) as (Hq2 & Ht2 & Hc2 & Hr2).
  set (w2 := animateCounter "activeVehicles" n2 "" w1) in *.
  destruct (animateCounter_spec "idleVehicles" n3 "" w2) as (Hq3 & Ht3 & Hc3 & Hr3).
  set (w3 := animateCounter "idleVehicles" n3 "" w2) in *.
  destruct (animateCounter_spec "fleetEfficiency" n4 "%" w3) as (Hq4 & Ht4 & Hc4 & Hr4).
  set (w4 := animateCounter "fleetEfficiency" n4 "%" w3) in *.
  assert (texts w0 = texts w /\ clock w0 = clock w) as [Ht0 Hc0] by done.
  rewrite Ht4, Ht3, Ht2, Ht1, Hc4, Hc3, Hc2, Hc1.
  repeat split; try done.
  - rewrite Hq4, Hq3, Hq2, Hq1.
    rewrite (counterAnimation_ext w w3), (counterAnimation_ext w w2),
      (counterAnimation_ext w w1), (counterAnimation_ext w w0) by congruence.
    by rewrite <- !app_assoc, app_nil_r.
  - by rewrite Hr4, Hr3, Hr2, Hr1.
Qed.

Lemma round_integer z : Js.round (Js.Fin (inject_Z z)) = Js.Fin z.
Proof. unfold Js.round. by rewrite Qfloor_half. Qed.

Lemma frameText_final a s z t :
  startValue a = Js.Fin s -> targetValue a = Js.Fin (inject_Z z) ->
  running a t = false -> frameText a t = finalText a.
Proof.
  intros Hs Hz Hrun%running_false. unfold frameText, finalText.
  rewrite (currentValue_finite a s (inject_Z z) t Hs Hz), Hz, round_integer.
  by rewrite counterValue_end.
Qed.

Lemma or_zero_parseInt text : exists s, Js.or_zero (Js.parseInt text) = Js.Fin s.
Proof. unfold Js.parseInt. repeat case_match; simpl; eauto. Qed.

(** In the exact range the number read is the integer of the digits. *)
Lemma to_double_exact z : exactRange z -> Js.to_double (Js.Fin z) = Js.Fin z.
Proof.
  intros Hz. unfold Js.to_double.
  assert ((Z.abs z <? 2 ^ 53) = true) as ->; [|done].
  apply Z.ltb_lt. unfold exactRange in Hz. lia.
Qed.

Lemma read_exact text s :
  Js.or_zero (Js.parseInt text) = Js.Fin s -> exactRange s ->
  Js.or_zero (Js.to_double (Js.parseInt text)) = Js.Fin s.
Proof.
  intros Hs Hz. destruct (Js.parseInt text) as [z| |b]; simpl in Hs; [|done..].
  injection Hs as ->. by rewrite to_double_exact.
Qed.










Lemma overflowingText_infinite :
  Js.parseInt overflowingText = Js.Fin (10 ^ 309) /\
  Js.to_double (Js.parseInt overflowingText) = Js.Inf false.
Proof. split; by vm_compute. Qed.



Example updateVehicleStats_examplePage :
  (fun w => (w !! "totalVehicles", w !! "activeVehicles",
             w !! "idleVehicles", w !! "fleetEfficiency"))
    (texts (runFrames [16; 1000; 1016]%Q
              (updateVehicleStats threeVehicles examplePage)))
  = (Some "3", Some "2", Some "1", Some "67%").
Proof. by vm_compute. Qed.

(** The rounding of the quotient shows in the percentage: 23 of 40 is
    57.49999999999999 on doubles, and 57 per cent. *)
Example fleetEfficiency_rounds_the_double :
  fleetEfficiency 40 23 = Js.Fin 57 /\
  Js.round (Js.mul (Js.div (Js.of_nat 23) (Js.of_nat 40)) (Js.Fin 100%Q)) = Js.Fin 58.
Proof. split; by vm_compute. Qed.



Example division_by_zero_unguarded :
  Js.div (Js.of_nat 0) (Js.of_nat 0) = Js.NaN /\
  Js.div (Js.of_nat 2) (Js.of_nat 0) = Js.Inf false.
Proof. split; reflexivity. Qed.




(** ** The trend chart over the life of the page *)

Lemma showNotification_charts text type duration w :
  charts (showNotification text type duration w) = charts w.
Proof. unfold showNotification. by repeat case_match. Qed.

Lemma startLiveUpdates_charts w : charts (startLiveUpdates w) = charts w.
Proof. unfold startLiveUpdates. by destruct (updateTimer w). Qed.

Lemma stopLiveUpdates_charts w : charts (stopLiveUpdates w) = charts w.
Proof. unfold stopLiveUpdates. by case_match. Qed.

Lemma restartLiveUpdates_charts w : charts (restartLiveUpdates w) = charts w.
Proof.
  unfold restartLiveUpdates.
  case_match; by rewrite ?startLiveUpdates_charts, stopLiveUpdates_charts.
Qed.

Lemma set_liveIndicator_charts v w : charts (set_liveIndicator v w) = charts w.
Proof. reflexivity. Qed.

Lemma set_loadingShown_charts v w : charts (set_loadingShown v w) = charts w.
Proof. reflexivity. Qed.

Lemma emit_charts e w : charts (emit e w) = charts w.
Proof. reflexivity. Qed.

Lemma toggleLiveMode_charts enabled w : charts (toggleLiveMode enabled w) = charts w.
Proof.
  unfold toggleLiveMode. destruct enabled; rewrite showNotification_charts.
  - case_match; by rewrite ?set_liveIndicator_charts, startLiveUpdates_charts.
  - repeat case_match;
      by rewrite ?set_liveIndicator_charts, stopLiveUpdates_charts.
Qed.

Lemma onIntervalChange_charts value w : charts (onIntervalChange value w) = charts w.
Proof. unfold onIntervalChange. case_match; by rewrite ?restartLiveUpdates_charts. Qed.

Lemma refreshAllData_charts w : charts (refreshAllData w) = charts w.
Proof. unfold refreshAllData. apply showNotification_charts. Qed.

Lemma timerCallback_charts w : charts (timerCallback w) = charts w.
Proof. unfold timerCallback. by case_match. Qed.

Lemma animate_charts a t w : charts (animate a t w) = charts w.
Proof. unfold animate. by case_match. Qed.

Lemma animationFrame_charts t w : charts (animationFrame t w) = charts w.
Proof.
  unfold animationFrame. rewrite (fold_left_preserves _ charts); [done|].
  intros; apply animate_charts.
Qed.

Lemma animateCounter_charts id target sfx w :
  charts (animateCounter id target sfx w) = charts w.
Proof. unfold animateCounter. by case_match. Qed.

Lemma updateVehicleStats_charts vehicles w :
  charts (updateVehicleStats vehicles w) = charts w.
Proof. unfold updateVehicleStats. by rewrite !animateCounter_charts. Qed.

Lemma updateWeatherInfo_charts weather w :
  charts (updateWeatherInfo weather w) = charts w.
Proof. unfold updateWeatherInfo. by case_match. Qed.

Lemma updateTrafficInfo_charts traffic w :
  charts (updateTrafficInfo traffic w) = charts w.
Proof. unfold updateTrafficInfo. by case_match. Qed.

Lemma updateMaintenanceAlerts_charts m w :
  charts (updateMaintenanceAlerts m w) = charts w.
Proof.
  unfold updateMaintenanceAlerts. repeat case_match; try done.
  rewrite (fold_left_preserves _ charts); [done|].
  intros; apply showNotification_charts.
Qed.

Lemma updateLiveTracking_charts tracks w :
  charts (updateLiveTracking tracks w) = charts w.
Proof. unfold updateLiveTracking. by repeat case_match. Qed.

Lemma updateLastRefreshTime_charts amb w :
  charts (updateLastRefreshTime amb w) = charts w.
Proof. unfold updateLastRefreshTime. by case_match. Qed.

Lemma updateCarbonTrendChart_lengths timeLabel r chart :
  length (labels chart) = length (data chart) ->
  (length (labels chart) <= 10)%nat ->
  let chart' := updateCarbonTrendChart timeLabel r chart in
  length (labels chart') = length (data chart') /\
  (length (labels chart') <= 10)%nat.
Proof.
  intros Heq Hle chart'. subst chart'. unfold updateCarbonTrendChart.
  destruct (Nat.ltb_spec 10 (length (labels chart ++ [timeLabel]))) as [Hlt|Hge];
    rewrite length_app in *; simpl in *.
  - rewrite !tail_snoc_length. lia.
  - rewrite !length_app. simpl. lia.
Qed.

Lemma updateCharts_trendWindow amb w :
  trendWindow w -> trendWindow (updateCharts amb w).
Proof.
  unfold trendWindow, updateCharts.
  destruct (carbonTrend (charts w)) as [chart|]; simpl.
  - intros [Heq Hle]. destruct (fuelConsumption (charts w)); simpl;
      by apply updateCarbonTrendChart_lengths.
  - by destruct (fuelConsumption (charts w)).
Qed.

Lemma trendWindow_charts w w' : charts w' = charts w -> trendWindow w -> trendWindow w'.
Proof. unfold trendWindow. by intros ->. Qed.

Lemma fetchRealTimeData_resume_trendWindow r amb w :
  trendWindow w -> trendWindow (fetchRealTimeData_resume r amb w).
Proof.
  intros Hw. unfold fetchRealTimeData_resume.
  destruct (Promise_all r) as [[[[[v we] t] m] k]|].
  - eapply trendWindow_charts; [apply updateLastRefreshTime_charts|].
    unfold hideLoadingIndicators.
    eapply trendWindow_charts; [apply set_loadingShown_charts|].
    apply updateCharts_trendWindow.
    eapply trendWindow_charts; [|exact Hw].
    by rewrite updateLiveTracking_charts, updateMaintenanceAlerts_charts,
      updateTrafficInfo_charts, updateWeatherInfo_charts, updateVehicleStats_charts.
  - eapply trendWindow_charts; [|exact Hw].
    unfold hideLoadingIndicators.
    by rewrite set_loadingShown_charts, showNotification_charts.
Qed.

Lemma step_trendWindow w w' : step w w' -> trendWindow w -> trendWindow w'.
Proof.
  destruct 1; intros Hw;
    auto using fetchRealTimeData_resume_trendWindow;
    (eapply trendWindow_charts; [|exact Hw]);
    auto using toggleLiveMode_charts, startLiveUpdates_charts,
      stopLiveUpdates_charts, restartLiveUpdates_charts, onIntervalChange_charts,
      refreshAllData_charts, timerCallback_charts, animationFrame_charts.
Qed.

Lemma setupNotifications_charts w : charts (setupNotifications w) = charts w.
Proof. unfold setupNotifications. by repeat case_match. Qed.

Lemma construct_trendWindow w0 : trendWindow (construct w0).
Proof.
  unfold construct, init, setupEventListeners.
  eapply trendWindow_charts.
  { rewrite setupNotifications_charts. apply startLiveUpdates_charts. }
  unfold trendWindow, initializeCharts. cbn [charts set_charts carbonTrend].
  case_match; [|done]. case_match; [|done]. simplify_eq. simpl. lia.
Qed.

(** X6: The trend series never holds more than ten points, and its labels and
    values stay in step. *)
Lemma reachable_trendWindow w : reachable w -> trendWindow w.
Proof.
  intros (w0 & _ & Hr). pose proof (construct_trendWindow w0) as H0.
  induction Hr; eauto using step_trendWindow.
Qed.

(** * Further properties *)

(** ** A tick whose fetches all succeed *)

Lemma sameOutside_refl w : sameOutside w w.
Proof. by repeat split. Qed.

Lemma sameOutside_trans w1 w2 w3 :
  sameOutside w1 w2 -> sameOutside w2 w3 -> sameOutside w1 w3.
Proof.
  unfold sameOutside. intros (?&?&?&?&?&?) (?&?&?&?&?&?).
  repeat split; congruence.
Qed.

Lemma showNotification_sameOutside text type duration w :
  sameOutside w (showNotification text type duration w).
Proof.
  unfold sameOutside. rewrite showNotification_timerState.
  unfold showNotification. by repeat case_match.
Qed.

Lemma updateVehicleStats_frame vehicles w :
  trace (updateVehicleStats vehicles w) = trace w ++ [ECall "updateVehicleStats"] /\
  regions (updateVehicleStats vehicles w) = regions w /\
  sameOutside w (updateVehicleStats vehicles w).
Proof.
  destruct (updateVehicleStats_spec vehicles w) as (_ & Ht & Hc & Htr).
  split; [done|]. unfold sameOutside.
  rewrite Ht, Hc, updateVehicleStats_timerState.
  unfold updateVehicleStats, animateCounter. by repeat case_match.
Qed.

Lemma updateWeatherInfo_frame weather w :
  trace (updateWeatherInfo weather w) = trace w ++ [ECall "updateWeatherInfo"] /\
  regions (updateWeatherInfo weather w) !! "maintenanceAlerts"
    = regions w !! "maintenanceAlerts" /\
  sameOutside w (updateWeatherInfo weather w).
Proof.
  unfold updateWeatherInfo, sameOutside. case_match; simpl; [|done].
  by rewrite lookup_insert_ne.
Qed.

Lemma updateTrafficInfo_frame traffic w :
  trace (updateTrafficInfo traffic w) = trace w ++ [ECall "updateTrafficInfo"] /\
  regions (updateTrafficInfo traffic w) !! "maintenanceAlerts"
    = regions w !! "maintenanceAlerts" /\
  sameOutside w (updateTrafficInfo traffic w).
Proof.
  unfold updateTrafficInfo, sameOutside. case_match; simpl; [|done].
  by rewrite lookup_insert_ne.
Qed.

Lemma updateLiveTracking_frame tracks w :
  trace (updateLiveTracking tracks w) = trace w ++ [ECall "updateLiveTracking"] /\
  sameOutside w (updateLiveTracking tracks w).
Proof. unfold updateLiveTracking, sameOutside. by repeat case_match. Qed.

Lemma updateMaintenanceAlerts_frame m w :
  trace (updateMaintenanceAlerts m w)
    = trace w ++ ECall "updateMaintenanceAlerts" :: maintenanceEvents w m /\
  sameOutside w (updateMaintenanceAlerts m w).
Proof.
  unfold updateMaintenanceAlerts, maintenanceEvents.
  replace (regions (emit (ECall "updateMaintenanceAlerts") w)) with (regions w)
    by reflexivity.
  destruct (regions w !! "maintenanceAlerts") as [view|]; [|done].
  destruct (alerts m) as [all|]; [|done].
  set (w0 := render _ _ _).
  assert (trace w0 = trace w ++ [ECall "updateMaintenanceAlerts"]) as Htr0 by done.
  assert (sameOutside w w0) as Hs0 by done.
  assert (permission w0 = permission w) as Hp0 by done.
  clearbody w0.
  destruct (notify_each_critical (List.filter critical all) w0) as (Ht & _ & _).
  split.
  - rewrite Ht, Htr0, Hp0. by rewrite <- app_assoc.
  - eapply sameOutside_trans; [exact Hs0|]. clear.
    generalize (List.filter critical all). intros l. revert w0.
    induction l as [|a l IH]; intros w0; simpl; [apply sameOutside_refl|].
    eapply sameOutside_trans; [apply showNotification_sameOutside|apply IH].
Qed.

Lemma updateCharts_frame amb w :
  trace (updateCharts amb w) = trace w /\ sameOutside w (updateCharts amb w).
Proof. unfold updateCharts, sameOutside. by repeat case_match. Qed.

Lemma maintenanceEvents_errors w m :
  length (List.filter isErrorToast (maintenanceEvents w m))
  = match regions w !! "maintenanceAlerts", alerts m with
    | Some _, Some all => length (List.filter critical all)
    | _, _ => 0%nat
    end.
Proof.
  unfold maintenanceEvents. repeat case_match; try done.
  apply criticalEvents_errors.
Qed.

Lemma maintenanceEvents_no_render w m :
  List.filter isRenderCall (maintenanceEvents w m) = [].
Proof.
  unfold maintenanceEvents.
  destruct (regions w !! "maintenanceAlerts"); [|done].
  destruct (alerts m) as [all|]; [|done].
  induction (List.filter critical all) as [|a rest IH]; [done|].
  simpl. by destruct (permission w) as [[]|].
Qed.

Lemma renderEvents_calls w m :
  List.filter isRenderCall (renderEvents w m)
  = [ECall "updateVehicleStats"; ECall "updateWeatherInfo";
     ECall "updateTrafficInfo"; ECall "updateMaintenanceAlerts";
     ECall "updateLiveTracking"].
Proof.
  unfold renderEvents. rewrite !List.filter_app. simpl.
  by rewrite maintenanceEvents_no_render.
Qed.

Lemma fetchRealTimeData_resume_fulfilled v we t m k amb w :
  let w' := fetchRealTimeData_resume (fulfilled v we t m k) amb w in
  trace w' = trace w ++ renderEvents w m /\
  loadingShown w' = false /\
  awaiting w' = pred (awaiting w) /\
  timerState w' = timerState w /\
  (is_Some (texts w !! "lastRefreshTime") ->
   texts w' !! "lastRefreshTime" = Some ("Last updated: " +:+ localeTime amb)).
Proof.
  intros w'. subst w'. unfold fetchRealTimeData_resume.
  change (Promise_all (fulfilled v we t m k)) with (Fulfilled (v, we, t, m, k)).
  cbv iota beta.
  set (w0 := set_awaiting _ w).
  assert (trace w0 = trace w) as Htr0 by done.
  assert (regions w0 = regions w) as Hr0 by done.
  assert (permission w0 = permission w /\ texts w0 = texts w /\
          timerState w0 = timerState w /\ awaiting w0 = pred (awaiting w))
    as (Hp0 & Htx0 & Hts0 & Haw0) by done.
  clearbody w0.
  destruct (updateVehicleStats_frame v w0) as (Htr1 & Hr1 & Hs1).
  set (w1 := updateVehicleStats v w0) in *. clearbody w1.
  destruct (updateWeatherInfo_frame we w1) as (Htr2 & Hr2 & Hs2).
  set (w2 := updateWeatherInfo we w1) in *. clearbody w2.
  destruct (updateTrafficInfo_frame t w2) as (Htr3 & Hr3 & Hs3).
  set (w3 := updateTrafficInfo t w2) in *. clearbody w3.
  destruct (updateMaintenanceAlerts_frame m w3) as (Htr4 & Hs4).
  set (w4 := updateMaintenanceAlerts m w3) in *. clearbody w4.
  destruct (updateLiveTracking_frame k w4) as (Htr5 & Hs5).
  set (w5 := updateLiveTracking k w4) in *. clearbody w5.
  destruct (updateCharts_frame amb w5) as (Htr6 & Hs6).
  set (w6 := updateCharts amb w5) in *. clearbody w6.
  pose proof (sameOutside_trans _ _ _ Hs1
                (sameOutside_trans _ _ _ Hs2 Hs3)) as Hs03.
  pose proof (sameOutside_trans _ _ _ Hs03
                (sameOutside_trans _ _ _ Hs4
                   (sameOutside_trans _ _ _ Hs5 Hs6)))
    as (Hp & Htx & _ & Hts & Haw & _).
  assert (maintenanceEvents w3 m = maintenanceEvents w m) as Hme.
  { destruct Hs03 as (Hp3 & _). unfold maintenanceEvents.
    by rewrite Hr3, Hr2, Hr1, Hr0, Hp3, Hp0. }
  assert (trace w6 = trace w ++ renderEvents w m) as Htrace.
  { rewrite Htr6, Htr5, Htr4, Htr3, Htr2, Htr1, Htr0, Hme. unfold renderEvents.
    rewrite <- !app_assoc. simpl. by rewrite <- ?app_assoc. }
  assert (forall x, trace (updateLastRefreshTime amb (hideLoadingIndicators x)) = trace x /\
                    loadingShown (updateLastRefreshTime amb (hideLoadingIndicators x)) = false /\
                    awaiting (updateLastRefreshTime amb (hideLoadingIndicators x)) = awaiting x /\
                    timerState (updateLastRefreshTime amb (hideLoadingIndicators x))
                      = timerState x) as Hlast.
  { intros x. unfold updateLastRefreshTime, hideLoadingIndicators. by case_match. }
  destruct (Hlast w6) as (-> & -> & -> & ->).
  split; [exact Htrace|]. split; [done|split; [|split]].
  - congruence.
  - congruence.
  - intros [old Hold]. unfold updateLastRefreshTime, hideLoadingIndicators.
    change (texts (set_loadingShown false w6)) with (texts w6).
    rewrite Htx, Htx0, Hold. simpl. apply lookup_insert_eq.
Qed.

(** X1: On a tick whose five fetches are fulfilled the five render methods are
    called once each, in their order; the only toasts of type error are
    those of the critical alerts; the loading indicators end up hidden, the
    refresh time is written, and the timer is left as it was. *)
Theorem fetchRealTimeData_fulfilled v we t m k amb w :
  let w' := fetchRealTimeData (fulfilled v we t m k) amb w in
  trace w' = trace w ++ successEvents w m /\
  List.filter isRenderCall (successEvents w m)
    = [ECall "updateVehicleStats"; ECall "updateWeatherInfo";
       ECall "updateTrafficInfo"; ECall "updateMaintenanceAlerts";
       ECall "updateLiveTracking"] /\
  length (List.filter isErrorToast (successEvents w m))
    = match regions w !! "maintenanceAlerts", alerts m with
      | Some _, Some all => length (List.filter critical all)
      | _, _ => 0%nat
      end /\
  loadingShown w' = false /\
  awaiting w' = awaiting w /\
  timerState w' = timerState w /\
  (is_Some (texts w !! "lastRefreshTime") ->
   texts w' !! "lastRefreshTime" = Some ("Last updated: " +:+ localeTime amb)).
Proof.
  intros w'. subst w'. unfold fetchRealTimeData.
  set (w0 := fetchRealTimeData_call w).
  assert (trace w0 = trace w ++ tickRequests) as Htr0.
  { simpl. by rewrite <- !app_assoc. }
  assert (renderEvents w0 m = renderEvents w m /\ texts w0 = texts w /\
          timerState w0 = timerState w /\ awaiting w0 = S (awaiting w))
    as (Hre0 & Htx0 & Hts0 & Haw0) by done.
  clearbody w0.
  destruct (fetchRealTimeData_resume_fulfilled v we t m k amb w0)
    as (Htr & Hl & Haw & Hts & Htx).
  assert (successEvents w m = tickRequests ++ renderEvents w m) as Hse by done.
  split; [|split; [|split; [|split; [exact Hl|split; [|split]]]]].
  - by rewrite Htr, Htr0, Hre0, Hse, <- app_assoc.
  - rewrite Hse, List.filter_app. by rewrite renderEvents_calls.
  - rewrite Hse, List.filter_app, length_app. unfold renderEvents.
    rewrite !List.filter_app, !length_app. simpl.
    rewrite maintenanceEvents_errors. lia.
  - by rewrite Haw, Haw0.
  - congruence.
  - rewrite <- Htx0. exact Htx.
Qed.

Lemma fetchRealTimeData_fulfilled_witness :
  is_Some (texts examplePage !! "lastRefreshTime") /\
  length (List.filter isErrorToast (successEvents examplePage twoCritical)) = 2%nat /\
  texts (fetchRealTimeData busyDay noon examplePage) !! "lastRefreshTime"
    = Some ("Last updated: " +:+ localeTime noon).
Proof.
  assert (is_Some (texts examplePage !! "lastRefreshTime")) as Hsome.
  { eexists. reflexivity. }
  split; [exact Hsome|].
  destruct (fetchRealTimeData_fulfilled threeVehicles
              {| condition := "Clear"; temperature := 31; humidity := 40;
                 visibility := 10 |}
              {| level := "High"; delay_minutes := 12 # 5;
                 timestamp := "2024-01-01T12:00:00" |}
              twoCritical [] noon examplePage) as (_ & _ & H3 & _ & _ & _ & H7).
  split; [exact H3|exact (H7 Hsome)].
Defined.

(** ** The chart updates *)

Lemma last_tail_snoc {A} (l : list A) x : last (tail (l ++ [x])) = Some x \/ l = [].
Proof.
  destruct l as [|y l]; [by right|]. left. simpl. apply last_snoc.
Qed.

(** X4: Whatever the series, an update puts the new point last, under the label
    of the moment; the number of labels goes up by one below ten and stays
    what it was from ten on, so a series longer than ten is not cut back to
    ten. *)
Theorem updateCarbonTrendChart_newest timeLabel r chart :
  let chart' := updateCarbonTrendChart timeLabel r chart in
  last (labels chart') = Some timeLabel /\
  (data chart <> [] \/ (length (labels chart) < 10)%nat ->
   last (data chart') = Some (r * 100 + 50)%Q) /\
  length (labels chart')
    = (if (length (labels chart) <? 10)%nat then S (length (labels chart))
       else length (labels chart)).
Proof.
  intros chart'. subst chart'. unfold updateCarbonTrendChart.
  rewrite length_app. simpl.
  destruct (Nat.ltb_spec 10 (length (labels chart) + 1)) as [Hlt|Hge]; simpl.
  - destruct (Nat.ltb_spec (length (labels chart)) 10) as [?|_]; [lia|].
    split; [|split].
    + destruct (last_tail_snoc (labels chart) timeLabel) as [H|H]; [done|].
      rewrite H in Hlt. simpl in Hlt. lia.
    + intros [Hne|?]; [|lia].
      by destruct (last_tail_snoc (data chart) (r * 100 + 50)%Q).
    + rewrite tail_snoc_length. done.
  - destruct (Nat.ltb_spec (length (labels chart)) 10) as [_|?]; [|lia].
    rewrite !last_snoc, length_app. simpl. split; [done|]. split; [done|lia].
Qed.

Lemma updateCarbonTrendChart_newest_witness :
  data fifteenLabels <> [] /\
  last (data (updateCarbonTrendChart "16" (1 # 2) fifteenLabels))
    = Some ((1 # 2) * 100 + 50)%Q /\
  length (labels (updateCarbonTrendChart "16" (1 # 2) fifteenLabels)) = 15%nat.
Proof.
  assert (data fifteenLabels <> []) as Hne by done.
  split; [exact Hne|].
  destruct (updateCarbonTrendChart_newest "16" (1 # 2) fifteenLabels)
    as (_ & H2 & H3).
  split; [exact (H2 (or_introl Hne))|exact H3].
Defined.

(** X5: With the values of [Math.random] in the unit interval: a trend series
    with its values from 50 up to 150 keeps them there, the composition has
    its three values from 60 up to 90, from 20 up to 40 and from 5 up to 15,
    and the efficiency series keeps its length with every value from 75 up
    to 95.  (The upper ends are counted in: they are not reached in exact
    arithmetic, but a sum rounded to a double can reach them.) *)
Theorem chart_values_in_range (rnd : nat -> Q) timeLabel chart series :
  (forall i, unit_interval (rnd i)) ->
  (Forall (fun y => 50 <= y /\ y <= 150)%Q (data chart) ->
   Forall (fun y => 50 <= y /\ y <= 150)%Q
     (data (updateCarbonTrendChart timeLabel (rnd 0%nat) chart))) /\
  Forall2 (fun y range => range.1 <= y /\ y <= range.2)%Q
    (updateFuelConsumptionChart (rnd 0%nat) (rnd 1%nat) (rnd 2%nat))
    [(60, 90); (20, 40); (5, 15)]%Q /\
  length (updateEfficiencyChart rnd series) = length series /\
  Forall (fun y => 75 <= y /\ y <= 95)%Q (updateEfficiencyChart rnd series).
Proof.
  intros Hrnd. split; [|split; [|split]].
  - intros Hold.
    assert (Forall (fun y => 50 <= y /\ y <= 150)%Q
              (data chart ++ [(rnd 0%nat * 100 + 50)%Q])) as Hnew.
    { apply Forall_app. split; [done|]. constructor; [|done].
      destruct (Hrnd 0%nat). split; lra. }
    unfold updateCarbonTrendChart. case_match; simpl; [|done].
    destruct (data chart ++ _) as [|y l]; [done|].
    by apply Forall_cons in Hnew as [_ ?].
  - unfold updateFuelConsumptionChart.
    destruct (Hrnd 0%nat), (Hrnd 1%nat), (Hrnd 2%nat).
    repeat constructor; simpl; lra.
  - unfold updateEfficiencyChart. apply length_imap.
  - unfold updateEfficiencyChart. apply Forall_forall.
    intros y Hy. apply list_elem_of_lookup in Hy as [i Hi].
    rewrite list_lookup_imap in Hi.
    destruct (series !! i); [|done]. injection Hi as <-.
    destruct (Hrnd i). split; lra.
Qed.

Lemma chart_values_in_range_witness :
  (forall i : nat, unit_interval ((fun _ => 1 # 2) i)) /\
  length (updateEfficiencyChart (fun _ => 1 # 2) [85; 92; 78; 95; 88; 82; 90]%Q)
    = 7%nat /\
  Forall (fun y => 75 <= y /\ y <= 95)%Q
    (updateEfficiencyChart (fun _ => 1 # 2) [85; 92; 78; 95; 88; 82; 90]%Q).
Proof.
  assert (forall i : nat, unit_interval ((fun _ => 1 # 2) i)) as H.
  { intros i. split; by vm_compute. }
  split; [exact H|].
  destruct (chart_values_in_range (fun _ => 1 # 2) "t" tenPoints
              [85; 92; 78; 95; 88; 82; 90]%Q H) as (_ & _ & H3 & H4).
  split; [exact H3|exact H4].
Defined.

(** ** The tracking list and the alert summary *)

Lemma updateLiveTracking_regions tracks w :
  regions (updateLiveTracking tracks w)
  = match regions w !! "liveTracking", tracks with
    | Some _, _ :: _ =>
        <["liveTracking" := Some (TrackingItems (take 5 tracks))]> (regions w)
    | _, _ => regions w
    end.
Proof.
  unfold updateLiveTracking.
  replace (regions (emit (ECall "updateLiveTracking") w)) with (regions w)
    by reflexivity.
  destruct (regions w !! "liveTracking"); [|done]. by destruct tracks.
Qed.

(** X8: The tracking container shows at most five records, the first ones of
    the payload in their order; on an empty payload (or without the
    container) the document is left as it was, the list rendered before
    included. *)
Theorem updateLiveTracking_first_five tracks w :
  let w' := updateLiveTracking tracks w in
  (is_Some (regions w !! "liveTracking") -> tracks <> [] ->
     exists shown,
       regions w' = <["liveTracking" := Some (TrackingItems shown)]> (regions w) /\
       shown `prefix_of` tracks /\
       length shown = Nat.min 5 (length tracks)) /\
  (regions w !! "liveTracking" = None \/ tracks = [] -> regions w' = regions w).
Proof.
  intros w'. subst w'. rewrite updateLiveTracking_regions. split.
  - intros [view ->] Hne. destruct tracks as [|x tracks]; [done|].
    exists (take 5 (x :: tracks)). split; [done|].
    split; [apply prefix_take|]. rewrite length_take. lia.
  - intros [-> | ->]; [done|]. by case_match.
Qed.

Lemma updateLiveTracking_first_five_witness :
  is_Some (regions examplePage !! "liveTracking") /\ sixTracks <> [] /\
  exists shown,
    regions (updateLiveTracking sixTracks examplePage)
      = <["liveTracking" := Some (TrackingItems shown)]> (regions examplePage) /\
    shown `prefix_of` sixTracks /\ length shown = Nat.min 5 (length sixTracks).
Proof.
  assert (is_Some (regions examplePage !! "liveTracking")) as Hsome.
  { eexists. reflexivity. }
  assert (sixTracks <> []) as Hne by done.
  split; [exact Hsome|]. split; [exact Hne|].
  exact (proj1 (updateLiveTracking_first_five sixTracks examplePage) Hsome Hne).
Defined.

Lemma filter_two_lengths {A} (f g : A -> bool) (l : list A) :
  (forall x, f x = true -> g x = false) ->
  (length (List.filter f l) + length (List.filter g l) <= length l)%nat.
Proof.
  intros Hfg. induction l as [|x l IH]; simpl; [lia|].
  destruct (f x) eqn:Hf; [rewrite (Hfg x Hf)|destruct (g x)]; simpl; lia.
Qed.

Lemma updateMaintenanceAlerts_regions m w :
  regions (updateMaintenanceAlerts m w)
  = match regions w !! "maintenanceAlerts", alerts m with
    | Some _, Some all =>
        <["maintenanceAlerts" :=
            Some (AlertsSummary (length (List.filter critical all))
                                (length (List.filter warning all)))]> (regions w)
    | _, _ => regions w
    end.
Proof.
  unfold updateMaintenanceAlerts.
  replace (regions (emit (ECall "updateMaintenanceAlerts") w)) with (regions w)
    by reflexivity.
  destruct (regions w !! "maintenanceAlerts"); [|done].
  destruct (alerts m) as [all|]; [|done].
  match goal with
  | |- context [fold_left ?f ?l ?w0] =>
      destruct (notify_each_critical l w0) as (_ & Hr & _)
  end.
  by rewrite Hr.
Qed.

(** X9: For any payload: with the container and the list of alerts there, the
    summary shows the numbers of critical alerts and of warnings, which
    together are no more than the alerts, and there is one toast of type
    error for each critical alert; without the list of alerts, or without
    the container, the call writes nothing and notifies nothing. *)
Theorem updateMaintenanceAlerts_counts m w :
  let w' := updateMaintenanceAlerts m w in
  trace w' = trace w ++ ECall "updateMaintenanceAlerts" :: maintenanceEvents w m /\
  (forall all, is_Some (regions w !! "maintenanceAlerts") -> alerts m = Some all ->
     let c := length (List.filter critical all) in
     let n := length (List.filter warning all) in
     regions w' = <["maintenanceAlerts" := Some (AlertsSummary c n)]> (regions w) /\
     length (List.filter isErrorToast (maintenanceEvents w m)) = c /\
     (c + n <= length all)%nat) /\
  (regions w !! "maintenanceAlerts" = None \/ alerts m = None ->
     regions w' = regions w /\ maintenanceEvents w m = []).
Proof.
  intros w'. destruct (updateMaintenanceAlerts_frame m w) as [Htr _].
  split; [exact Htr|]. subst w'. rewrite updateMaintenanceAlerts_regions. split.
  - intros all [view Hview] Hall c n. subst c n.
    rewrite maintenanceEvents_errors, Hview, Hall. split; [done|split; [done|]].
    apply filter_two_lengths. intros a. unfold critical, warning.
    intros Hc%bool_decide_eq_true. apply bool_decide_eq_false. by rewrite Hc.
  - unfold maintenanceEvents.
    intros [-> | ->]; [done|]. by destruct (regions w !! "maintenanceAlerts").
Qed.

Lemma updateMaintenanceAlerts_counts_witness :
  is_Some (regions examplePage !! "maintenanceAlerts") /\
  regions (updateMaintenanceAlerts twoCritical examplePage)
    = <["maintenanceAlerts" := Some (AlertsSummary 2 1)]> (regions examplePage) /\
  regions (updateMaintenanceAlerts {| alerts := None |} examplePage)
    = regions examplePage.
Proof.
  assert (is_Some (regions examplePage !! "maintenanceAlerts")) as Hsome.
  { eexists. reflexivity. }
  split; [exact Hsome|]. split.
  - destruct (updateMaintenanceAlerts_counts twoCritical examplePage) as (_ & H & _).
    exact (proj1 (H _ Hsome eq_refl)).
  - destruct (updateMaintenanceAlerts_counts {| alerts := None |} examplePage)
      as (_ & _ & H).
    exact (proj1 (H (or_intror eq_refl))).
Defined.

(** X10: Nothing remembers which alerts were notified: the same payload on two
    ticks in a row raises its critical alerts twice, while the summary is
    the same after the second call as after the first. *)
Theorem updateMaintenanceAlerts_again m w :
  let w1 := updateMaintenanceAlerts m w in
  let w2 := updateMaintenanceAlerts m w1 in
  trace w2 = trace w ++ (ECall "updateMaintenanceAlerts" :: maintenanceEvents w m)
                     ++ (ECall "updateMaintenanceAlerts" :: maintenanceEvents w m) /\
  regions w2 = regions w1.
Proof.
  intros w1 w2.
  destruct (updateMaintenanceAlerts_frame m w) as [Htr1 (Hp1 & _)].
  destruct (updateMaintenanceAlerts_frame m w1) as [Htr2 _].
  fold w1 in Htr1, Hp1. fold w2 in Htr2.
  pose proof (updateMaintenanceAlerts_regions m w) as Hr1.
  pose proof (updateMaintenanceAlerts_regions m w1) as Hr2.
  fold w1 in Hr1. fold w1 w2 in Hr2.
  destruct (regions w !! "maintenanceAlerts") as [view|] eqn:Hv.
  - destruct (alerts m) as [all|] eqn:Ha.
    + assert (is_Some (regions w1 !! "maintenanceAlerts")) as [view1 Hv1].
      { rewrite Hr1, lookup_insert_eq. by eexists. }
      rewrite Hv1 in Hr2. split.
      * rewrite Htr2, Htr1. unfold maintenanceEvents.
        rewrite Hp1, Hv1, Hv, Ha. by rewrite <- app_assoc.
      * rewrite Hr2, Hr1. by rewrite insert_insert_eq.
    + split.
      * rewrite Htr2, Htr1. unfold maintenanceEvents. rewrite Hv, Ha.
        destruct (regions w1 !! "maintenanceAlerts"); by rewrite <- app_assoc.
      * rewrite Hr2. by destruct (regions w1 !! "maintenanceAlerts").
  - rewrite Hr1, Hv in Hr2. split.
    + rewrite Htr2, Htr1. unfold maintenanceEvents. rewrite Hr1, Hv.
      by rewrite <- app_assoc.
    + by rewrite Hr2.
Qed.

(** ** A tick on a page without the targets *)

Lemma animateCounter_missing id target sfx w :
  texts w !! id = None -> animateCounter id target sfx w = w.
Proof. unfold animateCounter. by intros ->. Qed.

Lemma updateVehicleStats_missing vehicles w :
  (forall id, id ∈ ["totalVehicles"; "activeVehicles"; "idleVehicles"; "fleetEfficiency"] ->
     texts w !! id = None) ->
  updateVehicleStats vehicles w = emit (ECall "updateVehicleStats") w.
Proof.
  intros Hno. unfold updateVehicleStats.
  assert (forall id,
            id ∈ ["totalVehicles"; "activeVehicles"; "idleVehicles"; "fleetEfficiency"] ->
            texts (emit (ECall "updateVehicleStats") w) !! id = None) as Hno' by exact Hno.
  set (w0 := emit (ECall "updateVehicleStats") w) in *. clearbody w0.
  rewrite (animateCounter_missing "totalVehicles") by (apply Hno'; repeat constructor).
  rewrite (animateCounter_missing "activeVehicles") by (apply Hno'; repeat constructor).
  rewrite (animateCounter_missing "idleVehicles") by (apply Hno'; repeat constructor).
  apply animateCounter_missing. apply Hno'. repeat constructor.
Qed.

Lemma updateCharts_none amb w :
  createdCharts (charts w) = [] ->
  charts (updateCharts amb w) = charts w /\ regions (updateCharts amb w) = regions w /\
  texts (updateCharts amb w) = texts w /\
  frameCallbacks (updateCharts amb w) = frameCallbacks w /\
  trace (updateCharts amb w) = trace w.
Proof.
  unfold createdCharts, updateCharts. destruct (charts w) as [[?|] [?|] [?|]]; by simpl.
Qed.

(** X2: Missing targets are skipped in silence: on a page that has none of the
    elements a tick writes to, and no chart, a tick whose fetches are
    fulfilled calls the five render methods and leaves the document, the
    charts and the animation queue as they were; no toast is shown. *)
Theorem fetchRealTimeData_no_targets v we t m k amb w :
  noTargets w ->
  let w' := fetchRealTimeData (fulfilled v we t m k) amb w in
  trace w' = trace w ++ tickRequests
             ++ [ECall "updateVehicleStats"; ECall "updateWeatherInfo";
                 ECall "updateTrafficInfo"; ECall "updateMaintenanceAlerts";
                 ECall "updateLiveTracking"] /\
  regions w' = regions w /\ texts w' = texts w /\ charts w' = charts w /\
  frameCallbacks w' = frameCallbacks w.
Proof.
  intros (Hr & Ht & Hc) w'. subst w'.
  unfold fetchRealTimeData, fetchRealTimeData_resume.
  change (Promise_all (fulfilled v we t m k)) with (Fulfilled (v, we, t, m, k)).
  cbv iota beta.
  set (w0 := set_awaiting _ (fetchRealTimeData_call w)).
  assert (trace w0 = trace w ++ tickRequests) as Htr0.
  { simpl. by rewrite <- !app_assoc. }
  assert (regions w0 = regions w /\ texts w0 = texts w /\ charts w0 = charts w /\
          frameCallbacks w0 = frameCallbacks w) as (Hr0 & Ht0 & Hc0 & Hq0) by done.
  clearbody w0.
  rewrite updateVehicleStats_missing
    by (intros id Hid; rewrite Ht0; apply Ht; set_unfold; tauto).
  set (w1 := emit (ECall "updateVehicleStats") w0).
  assert (trace w1 = trace w0 ++ [ECall "updateVehicleStats"] /\
          regions w1 = regions w0 /\ texts w1 = texts w0 /\ charts w1 = charts w0 /\
          frameCallbacks w1 = frameCallbacks w0) as (Htr1 & Hr1 & Ht1 & Hc1 & Hq1) by done.
  clearbody w1.
  unfold updateWeatherInfo.
  change (regions (emit ?e ?x)) with (regions x).
  rewrite Hr1, Hr0, (Hr "weatherInfo") by (repeat constructor).
  set (w2 := emit (ECall "updateWeatherInfo") w1).
  assert (trace w2 = trace w1 ++ [ECall "updateWeatherInfo"] /\
          regions w2 = regions w1 /\ texts w2 = texts w1 /\ charts w2 = charts w1 /\
          frameCallbacks w2 = frameCallbacks w1) as (Htr2 & Hr2 & Ht2 & Hc2 & Hq2) by done.
  clearbody w2.
  unfold updateTrafficInfo.
  change (regions (emit ?e ?x)) with (regions x).
  rewrite Hr2, Hr1, Hr0, (Hr "trafficInfo") by (repeat constructor).
  set (w3 := emit (ECall "updateTrafficInfo") w2).
  assert (trace w3 = trace w2 ++ [ECall "updateTrafficInfo"] /\
          regions w3 = regions w2 /\ texts w3 = texts w2 /\ charts w3 = charts w2 /\
          frameCallbacks w3 = frameCallbacks w2) as (Htr3 & Hr3 & Ht3 & Hc3 & Hq3) by done.
  clearbody w3.
  unfold updateMaintenanceAlerts.
  change (regions (emit ?e ?x)) with (regions x).
  rewrite Hr3, Hr2, Hr1, Hr0, (Hr "maintenanceAlerts") by (repeat constructor).
  set (w4 := emit (ECall "updateMaintenanceAlerts") w3).
  assert (trace w4 = trace w3 ++ [ECall "updateMaintenanceAlerts"] /\
          regions w4 = regions w3 /\ texts w4 = texts w3 /\ charts w4 = charts w3 /\
          frameCallbacks w4 = frameCallbacks w3) as (Htr4 & Hr4 & Ht4 & Hc4 & Hq4) by done.
  clearbody w4.
  unfold updateLiveTracking.
  change (regions (emit ?e ?x)) with (regions x).
  rewrite Hr4, Hr3, Hr2, Hr1, Hr0, (Hr "liveTracking") by (repeat constructor).
  set (w5 := emit (ECall "updateLiveTracking") w4).
  assert (trace w5 = trace w4 ++ [ECall "updateLiveTracking"] /\
          regions w5 = regions w4 /\ texts w5 = texts w4 /\ charts w5 = charts w4 /\
          frameCallbacks w5 = frameCallbacks w4) as (Htr5 & Hr5 & Ht5 & Hc5 & Hq5) by done.
  clearbody w5.
  destruct (updateCharts_none amb w5) as (Hc6 & Hr6 & Ht6 & Hq6 & Htr6).
  { by rewrite Hc5, Hc4, Hc3, Hc2, Hc1, Hc0. }
  set (w6 := updateCharts amb w5) in *. clearbody w6.
  unfold updateLastRefreshTime, hideLoadingIndicators.
  change (texts (set_loadingShown false w6)) with (texts w6).
  rewrite Ht6, Ht5, Ht4, Ht3, Ht2, Ht1, Ht0, (Ht "lastRefreshTime")
    by (repeat constructor).
  change (trace (set_loadingShown false w6)) with (trace w6).
  change (regions (set_loadingShown false w6)) with (regions w6).
  change (texts (set_loadingShown false w6)) with (texts w6).
  change (charts (set_loadingShown false w6)) with (charts w6).
  change (frameCallbacks (set_loadingShown false w6)) with (frameCallbacks w6).
  split; [|split; [congruence|split; [congruence|split; congruence]]].
  rewrite Htr6, Htr5, Htr4, Htr3, Htr2, Htr1, Htr0.
  rewrite <- !app_assoc. reflexivity.
Qed.

Lemma fetchRealTimeData_no_targets_witness :
  noTargets (set_texts ∅ bareDocument) /\
  regions (fetchRealTimeData busyDay noon (set_texts ∅ bareDocument)) = ∅.
Proof.
  assert (noTargets (set_texts ∅ bareDocument)) as H.
  { split; [|split]; [intros id _; apply lookup_empty ..|].
    by vm_compute. }
  split; [exact H|].
  destruct (fetchRealTimeData_no_targets threeVehicles
              {| condition := "Clear"; temperature := 31; humidity := 40;
                 visibility := 10 |}
              {| level := "High"; delay_minutes := 12 # 5;
                 timestamp := "2024-01-01T12:00:00" |}
              twoCritical [] noon (set_texts ∅ bareDocument) H)
    as (_ & H2 & _).
  exact H2.
Defined.

(** ** More of the lifecycle *)

Lemma showNotification_quiet text type duration w :
  type <> "error" ->
  let w' := showNotification text type duration w in
  last (trace w') = Some (EToast text type duration) /\
  liveIndicator w' = liveIndicator w /\ awaiting w' = awaiting w /\
  timerState w' = timerState w.
Proof.
  intros Hne. unfold showNotification. rewrite decide_False by done.
  simpl. by rewrite last_snoc.
Qed.

Lemma timerState_fields w w' :
  timerState w' = timerState w ->
  isLiveMode w' = isLiveMode w /\ updateTimer w' = updateTimer w /\
  timers w' = timers w.
Proof. unfold timerState. by intros [= _ -> -> -> _]. Qed.

Lemma startLiveUpdates_others w :
  isLiveMode (startLiveUpdates w) = isLiveMode w /\
  updateInterval (startLiveUpdates w) = updateInterval w /\
  liveIndicator (startLiveUpdates w) = liveIndicator w /\
  permission (startLiveUpdates w) = permission w.
Proof. unfold startLiveUpdates. destruct (updateTimer w); repeat split. Qed.

Lemma stopLiveUpdates_others w :
  isLiveMode (stopLiveUpdates w) = isLiveMode w /\
  updateInterval (stopLiveUpdates w) = updateInterval w /\
  liveIndicator (stopLiveUpdates w) = liveIndicator w /\
  awaiting (stopLiveUpdates w) = awaiting w /\
  frameCallbacks (stopLiveUpdates w) = frameCallbacks w.
Proof. unfold stopLiveUpdates. destruct (updateTimer w); repeat split. Qed.

Lemma shown_indicator w :
  let w' := match liveIndicator w with
            | Some _ => set_liveIndicator (Some ("inline-flex", "🔴 Live Data")) w
            | None => w
            end in
  timerState w' = timerState w /\ awaiting w' = awaiting w /\
  liveIndicator w' = match liveIndicator w with
                     | Some _ => Some ("inline-flex", "🔴 Live Data")
                     | None => None
                     end.
Proof. destruct (liveIndicator w) eqn:E; simpl; rewrite ?E; repeat split. Qed.

Lemma hidden_indicator w :
  let w' := match liveIndicator w with
            | Some (_, text) => set_liveIndicator (Some ("none", text)) w
            | None => w
            end in
  timerState w' = timerState w /\ awaiting w' = awaiting w /\
  liveIndicator w' = match liveIndicator w with
                     | Some (_, text) => Some ("none", text)
                     | None => None
                     end.
Proof. destruct (liveIndicator w) as [[d x]|] eqn:E; simpl; rewrite ?E; repeat split. Qed.

(** X11: Turning live mode on leaves the flag set, one timer with the configured
    interval under the handle, one tick started and a toast of type
    success; turning it off leaves the flag cleared, the handle null, no
    timer and a toast of type info.  Either way the live indicator, when the
    page has one, is shown or hidden to match. *)
Theorem toggleLiveMode_effect enabled w :
  scheduled w ->
  let w' := toggleLiveMode enabled w in
  isLiveMode w' = enabled /\
  timers w' = (if enabled then {[nextHandle w := updateInterval w]} else ∅) /\
  updateTimer w' = (if enabled then Some (nextHandle w) else None) /\
  awaiting w' = (if enabled then S (awaiting w) else awaiting w) /\
  last (trace w')
    = Some (if enabled then EToast "Live mode enabled" "success" 5000
            else EToast "Live mode disabled" "info" 5000) /\
  (forall display text, liveIndicator w = Some (display, text) ->
     liveIndicator w'
       = Some (if enabled then ("inline-flex", "🔴 Live Data") else ("none", text))) /\
  (liveIndicator w = None -> liveIndicator w' = None).
Proof.
  intros Hs w'. subst w'. unfold toggleLiveMode.
  assert (scheduled (set_isLiveMode enabled w)) as Hs0 by exact Hs.
  destruct enabled.
  - destruct (startLiveUpdates_spec _ Hs0) as (Hid & Ht & Ha & _).
    destruct (startLiveUpdates_others (set_isLiveMode true w)) as (Hl & _ & Hi & _).
    remember (startLiveUpdates (set_isLiveMode true w)) as w1 eqn:E1.
    destruct (shown_indicator w1) as (Hts & Haw & Hli).
    remember (match liveIndicator w1 with
              | Some _ => set_liveIndicator (Some ("inline-flex", "🔴 Live Data")) w1
              | None => w1
              end) as w2 eqn:E2.
    destruct (showNotification_quiet "Live mode enabled" "success" 5000 w2)
      as (Hlast & Hli3 & Haw3 & Hts3); [done|].
    apply timerState_fields in Hts as (Hl2 & Hid2 & Ht2).
    apply timerState_fields in Hts3 as (Hl3 & Hid3 & Ht3).
    rewrite Hlast, Hli3, Haw3, Hl3, Hid3, Ht3, Hl2, Hid2, Ht2, Haw, Hli, Hl, Hid,
      Ht, Ha.
    simpl in Hi. do 5 (split; [reflexivity|]). split.
    + intros display text Hw. by rewrite Hi, Hw.
    + intros Hw. by rewrite Hi, Hw.
  - destruct (stopLiveUpdates_spec _ Hs0) as (Hid & Ht).
    destruct (stopLiveUpdates_others (set_isLiveMode false w))
      as (Hl & _ & Hi & Ha & _).
    remember (stopLiveUpdates (set_isLiveMode false w)) as w1 eqn:E1.
    destruct (hidden_indicator w1) as (Hts & Haw & Hli).
    remember (match liveIndicator w1 with
              | Some (_, text) => set_liveIndicator (Some ("none", text)) w1
              | None => w1
              end) as w2 eqn:E2.
    destruct (showNotification_quiet "Live mode disabled" "info" 5000 w2)
      as (Hlast & Hli3 & Haw3 & Hts3); [done|].
    apply timerState_fields in Hts as (Hl2 & Hid2 & Ht2).
    apply timerState_fields in Hts3 as (Hl3 & Hid3 & Ht3).
    rewrite Hlast, Hli3, Haw3, Hl3, Hid3, Ht3, Hl2, Hid2, Ht2, Haw, Hli, Hl, Hid,
      Ht, Ha.
    simpl in Hi. do 5 (split; [reflexivity|]). split.
    + intros display text Hw. by rewrite Hi, Hw.
    + intros Hw. by rewrite Hi, Hw.
Qed.

Lemma toggleLiveMode_effect_witness :
  scheduled (construct examplePage) /\
  timers (toggleLiveMode false (construct examplePage)) = ∅ /\
  timers (toggleLiveMode true (construct examplePage))
    = {[nextHandle (construct examplePage) := updateInterval (construct examplePage)]}.
Proof.
  assert (scheduled (construct examplePage)) as Hs.
  { vm_compute. eexists. reflexivity. }
  split; [exact Hs|]. split.
  - destruct (toggleLiveMode_effect false (construct examplePage) Hs) as (_ & H & _).
    exact H.
  - destruct (toggleLiveMode_effect true (construct examplePage) Hs) as (_ & H & _).
    exact H.
Defined.

Lemma setupNotifications_effect w :
  trace (setupNotifications w)
    = trace w ++ match permission w with
                 | Some PermDefault => [ERequestPermission]
                 | _ => []
                 end /\
  timerState (setupNotifications w) = timerState w /\
  awaiting (setupNotifications w) = awaiting w.
Proof.
  unfold setupNotifications.
  destruct (permission w) as [[]|]; simpl; by rewrite ?app_nil_r.
Qed.

(** X12: On any page, construction leaves live mode off and yet one timer of
    30000 ms under the handle and one tick started; the permission for
    notifications is asked for only when it is undecided. *)
Theorem construct_effect w0 :
  loaded w0 ->
  let w := construct w0 in
  isLiveMode w = false /\ updateInterval w = Js.Fin 30000%Q /\
  updateTimer w = Some (nextHandle w0) /\
  timers w = {[nextHandle w0 := Js.Fin 30000%Q]} /\
  awaiting w = 1%nat /\
  trace w = [ESetInterval (nextHandle w0) (Js.Fin 30000%Q)] ++ tickRequests
            ++ match permission w0 with
               | Some PermDefault => [ERequestPermission]
               | _ => []
               end.
Proof.
  intros (Ht & _ & Ha & Htr) w. subst w.
  unfold construct, init, setupEventListeners.
  match goal with
  | |- context [startLiveUpdates ?x] => remember x as w1 eqn:E1
  end.
  assert (updateTimer w1 = None /\ timers w1 = timers w0 /\
          nextHandle w1 = nextHandle w0 /\ updateInterval w1 = Js.Fin 30000%Q /\
          isLiveMode w1 = false /\ awaiting w1 = awaiting w0 /\
          trace w1 = trace w0 /\ permission w1 = permission w0)
    as (Hid1 & Ht1 & Hn1 & Hi1 & Hl1 & Ha1 & Htr1 & Hp1).
  { subst w1. repeat split. }
  assert (scheduled w1) as Hs.
  { unfold scheduled. by rewrite Hid1, Ht1. }
  destruct (startLiveUpdates_spec w1 Hs) as (Hid & Hti & Haw & Htrace).
  destruct (startLiveUpdates_others w1) as (Hl & Hi & _ & Hp).
  clear E1. remember (startLiveUpdates w1) as w2 eqn:E2. clear E2.
  destruct (setupNotifications_effect w2) as (Htr3 & Hts3 & Ha3).
  apply timerState_fields in Hts3 as (Hl3 & Hid3 & Ht3).
  assert (updateInterval (setupNotifications w2) = updateInterval w2) as Hi3.
  { unfold setupNotifications. by repeat case_match. }
  rewrite Hl3, Hi3, Hid3, Ht3, Ha3, Htr3, Hl, Hi, Hid, Hti, Haw, Htrace, Hp.
  rewrite Hl1, Hi1, Hn1, Ha1, Htr1, Hp1, Hid1, Htr, Ha.
  by repeat split.
Qed.

Lemma construct_effect_witness :
  loaded examplePage /\
  timers (construct examplePage) = {[nextHandle examplePage := Js.Fin 30000%Q]} /\
  awaiting (construct examplePage) = 1%nat.
Proof.
  split; [exact examplePage_loaded|].
  destruct (construct_effect examplePage examplePage_loaded)
    as (_ & _ & _ & H4 & H5 & _).
  split; [exact H4|exact H5].
Defined.

(** X13: [destroy] cancels the timer and destroys the charts that were created,
    and nothing else: the ticks in flight and the animations asked for are
    still there, and will still run. *)
Theorem destroy_effect w :
  scheduled w ->
  timers (destroy w).1 = ∅ /\ updateTimer (destroy w).1 = None /\
  awaiting (destroy w).1 = awaiting w /\
  frameCallbacks (destroy w).1 = frameCallbacks w /\
  charts (destroy w).1 = charts w /\
  (forall name, name ∈ (destroy w).2 <->
     (name = "carbonTrend" /\ is_Some (carbonTrend (charts w))) \/
     (name = "fuelConsumption" /\ is_Some (fuelConsumption (charts w))) \/
     (name = "efficiency" /\ is_Some (efficiency (charts w)))).
Proof.
  intros Hs. destruct (stopLiveUpdates_spec w Hs) as (Hid & Ht).
  unfold destroy. simpl. split; [done|]. split; [done|].
  split; [|split; [|split]].
  - unfold stopLiveUpdates. by destruct (updateTimer w).
  - unfold stopLiveUpdates. by destruct (updateTimer w).
  - unfold stopLiveUpdates. by destruct (updateTimer w).
  - intros name. unfold createdCharts.
    destruct (carbonTrend (charts w)), (fuelConsumption (charts w)),
      (efficiency (charts w)); simpl;
      rewrite ?elem_of_cons, ?elem_of_nil, ?is_Some_alt;
      intuition (subst; eauto; discriminate).
Qed.

Lemma destroy_effect_witness :
  scheduled liveExample /\ timers (destroy liveExample).1 = ∅ /\
  awaiting (destroy liveExample).1 = awaiting liveExample.
Proof.
  assert (scheduled liveExample) as Hs.
  { vm_compute. eexists. reflexivity. }
  split; [exact Hs|].
  destruct (destroy_effect liveExample Hs) as (H1 & _ & H3 & _).
  split; [exact H1|exact H3].
Defined.

(** X14: The selection is not validated: when it does not start with a number
    the stored interval is [NaN], and in live mode that is the delay the
    timer is scheduled with. *)
Theorem onIntervalChange_not_a_number value w :
  scheduled w -> Js.parseInt value = Js.NaN ->
  let w' := onIntervalChange value w in
  updateInterval w' = Js.NaN /\
  (isLiveMode w = true ->
   exists id, updateTimer w' = Some id /\ timers w' = {[id := Js.NaN]}).
Proof.
  intros Hs Hnan w'. subst w'. unfold onIntervalChange. rewrite Hnan. simpl.
  set (w1 := set_updateInterval Js.NaN w).
  assert (scheduled w1) as H1 by done.
  change (isLiveMode w1) with (isLiveMode w).
  destruct (isLiveMode w) eqn:Hlive; [|by split].
  unfold restartLiveUpdates.
  assert (isLiveMode (stopLiveUpdates w1) = true /\
          updateInterval (stopLiveUpdates w1) = Js.NaN) as [-> Hi].
  { unfold stopLiveUpdates. destruct (updateTimer w1); by rewrite ?Hlive. }
  destruct (startLiveUpdates_spec _ (stopLiveUpdates_scheduled w1 H1))
    as (Hid & Ht & _).
  rewrite Hi in Ht. split; [|eauto].
  rewrite <- Hi. unfold startLiveUpdates.
  by destruct (updateTimer (stopLiveUpdates w1)).
Qed.

Lemma onIntervalChange_not_a_number_witness :
  scheduled liveExample /\ Js.parseInt "fast" = Js.NaN /\
  isLiveMode liveExample = true /\
  exists id, updateTimer (onIntervalChange "fast" liveExample) = Some id /\
             timers (onIntervalChange "fast" liveExample) = {[id := Js.NaN]}.
Proof.
  assert (scheduled liveExample) as Hs.
  { vm_compute. eexists. reflexivity. }
  split; [exact Hs|]. split; [reflexivity|]. split; [reflexivity|].
  exact (proj2 (onIntervalChange_not_a_number "fast" liveExample Hs eq_refl) eq_refl).
Defined.

(** ** What every reachable state keeps *)






























Lemma reachable_trendWindow_witness :
  reachable (fetchRealTimeData_resume busyDay noon (construct examplePage)) /\
  trendWindow (fetchRealTimeData_resume busyDay noon (construct examplePage)).
Proof.
  assert (reachable (fetchRealTimeData_resume busyDay noon (construct examplePage)))
    as Hr.
  { exists examplePage. split; [exact examplePage_loaded|].
    eapply rtc_once. apply step_settle. simpl. lia. }
  split; [exact Hr|]. exact (reachable_trendWindow _ Hr).
Defined.

(** ** A tick in flight when the updates are stopped *)

(** X3: Stopping cancels the timer, not a tick in flight: when the updates are
    stopped while a tick waits for its fetches, the tick still goes on when
    they are fulfilled, and renders as it would have, on a page whose timer
    is gone. *)
Theorem stopped_tick_still_renders v we t m k amb w :
  scheduled w -> (0 < awaiting w)%nat ->
  let w1 := stopLiveUpdates w in
  let w2 := fetchRealTimeData_resume (fulfilled v we t m k) amb w1 in
  step w w1 /\ step w1 w2 /\
  timers w2 = ∅ /\ updateTimer w2 = None /\
  trace w2 = trace w1 ++ renderEvents w m /\
  List.filter isRenderCall (renderEvents w m)
    = [ECall "updateVehicleStats"; ECall "updateWeatherInfo";
       ECall "updateTrafficInfo"; ECall "updateMaintenanceAlerts";
       ECall "updateLiveTracking"] /\
  awaiting w2 = pred (awaiting w).
Proof.
  intros Hs Hwait w1 w2.
  destruct (stopLiveUpdates_spec w Hs) as (Hid & Htimers).
  destruct (stopLiveUpdates_others w) as (_ & _ & _ & Haw & _).
  assert (renderEvents w1 m = renderEvents w m) as Hre1.
  { subst w1. unfold stopLiveUpdates. by destruct (updateTimer w). }
  fold w1 in Hid, Htimers, Haw.
  destruct (fetchRealTimeData_resume_fulfilled v we t m k amb w1)
    as (Htr & _ & Haw2 & Hts & _).
  fold w2 in Htr, Haw2, Hts.
  destruct (timerState_fields _ _ Hts) as (_ & Hid2 & Htimers2).
  split; [apply step_stop|]. split; [apply step_settle; lia|].
  split; [congruence|]. split; [congruence|].
  split; [by rewrite Htr, Hre1|].
  split; [apply renderEvents_calls|]. congruence.
Qed.

Lemma stopped_tick_still_renders_witness :
  scheduled liveExample /\ (0 < awaiting liveExample)%nat /\
  timers (fetchRealTimeData_resume busyDay noon (stopLiveUpdates liveExample)) = ∅ /\
  awaiting (fetchRealTimeData_resume busyDay noon (stopLiveUpdates liveExample))
    = pred (awaiting liveExample).
Proof.
  assert (scheduled liveExample) as Hs.
  { vm_compute. eexists. reflexivity. }
  assert (0 < awaiting liveExample)%nat as Hw by (vm_compute; lia).
  split; [exact Hs|]. split; [exact Hw|].
  destruct (stopped_tick_still_renders threeVehicles
              {| condition := "Clear"; temperature := 31; humidity := 40;
                 visibility := 10 |}
              {| level := "High"; delay_minutes := 12 # 5;
                 timestamp := "2024-01-01T12:00:00" |}
              twoCritical [] noon liveExample Hs Hw)
    as (_ & _ & H3 & _ & _ & _ & H7).
  split; [exact H3|exact H7].
Defined.

(** ** More of the counter animation *)

Lemma counterValue_anti s q p p' :
  (q <= inject_Z s)%Q -> (p <= p')%Q -> (p' <= 1)%Q ->
  counterValue s q p' <= counterValue s q p.
Proof.
  intros Hq Hp Hp'. unfold counterValue. apply Qfloor_resp_le.
  pose proof (easeOutQuart_mono p p' Hp Hp').
  assert ((q - inject_Z s) * easeOutQuart p' <= (q - inject_Z s) * easeOutQuart p)%Q.
  { assert (0 <= (inject_Z s - q) * (easeOutQuart p' - easeOutQuart p))%Q.
    { apply Qmult_le_0_compat; lra. }
    lra. }
  lra.
Qed.

(** X15: The general run of one animation, between integers in the exact range:
    from the number the text of the element starts with (0 when it starts
    with none) the numbers shown move towards the target without turning
    back, stay between the two, and the last frame leaves the target and
    its suffix; then no frame is asked for. *)
Theorem animateCounter_converges id text s z sfx ts w :
  texts w !! id = Some text ->
  Js.or_zero (Js.parseInt text) = Js.Fin s ->
  exactRange s -> exactRange z ->
  frameCallbacks w = [] ->
  StronglySorted Qle ts ->
  Forall (fun t => clock w <= t)%Q ts ->
  Exists (fun t => clock w + 1000 <= t)%Q ts ->
  let w1 := animateCounter id (Js.Fin (inject_Z z)) sfx w in
  exists values : list Z,
    textAfterFrames id ts w1 = (fun v => Some (pretty v +:+ sfx)) <$> values /\
    (s <= z -> StronglySorted Z.le values /\ Forall (fun v => s <= v <= z) values) /\
    (z <= s -> StronglySorted Z.ge values /\ Forall (fun v => z <= v <= s) values) /\
    last values = Some z /\
    texts (runFrames ts w1) !! id = Some (pretty z +:+ sfx) /\
    frameCallbacks (runFrames ts w1) = [].
Proof.
  intros Htext Hs Hrange _ Hidle Hsorted Hafter Hlate w1.
  set (a := {| element := id; startValue := Js.Fin s;
               startTime := clock w; targetValue := Js.Fin (inject_Z z);
               suffix := sfx |}).
  assert (w1 = requestAnimationFrame a w) as Hw1.
  { subst w1. unfold animateCounter. by rewrite Htext, (read_exact text s Hs Hrange). }
  assert (frameCallbacks w1 = [a]) as Hqueue.
  { rewrite Hw1. simpl. by rewrite Hidle. }
  destruct (single_animation a s z eq_refl eq_refl ts w1 Hsorted (or_introl Hqueue))
    as [Hshown Hend].
  destruct Hend as [Hfinal Hover].
  { right. eapply Exists_impl; [exact Hlate|]. intros t. apply (progress_done a). }
  change (element a) with id in Hshown, Hfinal.
  change (suffix a) with sfx in Hshown, Hfinal.
  exists ((fun t => counterValue s (inject_Z z) (progress a t)) <$> ts).
  split; [|split; [|split; [|split; [|split]]]].
  - rewrite Hshown, <- list_fmap_compose. by apply list_fmap_ext.
  - intros Hsz. split.
    + eapply StronglySorted_map; [|exact Hsorted]. intros t t' Htt'. simpl.
      apply counterValue_mono;
        [by rewrite <- Zle_Qle|by apply progress_mono|apply progress_le_1].
    + apply Forall_fmap. eapply Forall_impl; [exact Hafter|]. intros t Ht. simpl.
      apply counterValue_bounds; [done|by apply progress_nonneg|apply progress_le_1].
  - intros Hzs. split.
    + eapply StronglySorted_map; [|exact Hsorted]. intros t t' Htt'. simpl.
      apply Z.le_ge. apply counterValue_anti;
        [by rewrite <- Zle_Qle|by apply progress_mono|apply progress_le_1].
    + apply Forall_fmap. eapply Forall_impl; [exact Hafter|]. intros t Ht. simpl.
      split.
      * rewrite <- (counterValue_end s z 1) at 1 by reflexivity.
        apply counterValue_anti; [by rewrite <- Zle_Qle|apply progress_le_1|lra].
      * rewrite <- (counterValue_start s (inject_Z z) 0) at 2 by reflexivity.
        apply counterValue_anti;
          [by rewrite <- Zle_Qle|by apply progress_nonneg|apply progress_le_1].
  - destruct (sorted_last_Exists Qle (fun t => clock w + 1000 <= t)%Q ts)
      as (t & Hlast & Ht); [|done|done|].
    { intros x y Hxy Hx. eapply Qle_trans; [exact Hx|exact Hxy]. }
    rewrite fmap_last, Hlast. simpl. f_equal. apply counterValue_end.
    apply Qle_antisym; [apply progress_le_1|by apply (progress_done a)].
  - exact Hfinal.
  - exact Hover.
Qed.

Example animateCounter_down :
  textAfterFrames "fleetEfficiency" [16; 500; 1000]%Q
    (animateCounter "fleetEfficiency" (Js.Fin 40%Q) "%"
       (set_texts (<["fleetEfficiency" := "67%"]> (texts examplePage)) examplePage))
  = [Some "65%"; Some "42%"; Some "40%"].
Proof. reflexivity. Qed.

Lemma animateCounter_converges_witness :
  texts examplePage !! "fleetEfficiency" = Some "0%" /\
  Js.or_zero (Js.parseInt "0%") = Js.Fin 0 /\
  exactRange 0 /\ exactRange 67 /\
  exists values : list Z,
    textAfterFrames "fleetEfficiency" [16; 500; 1000; 1016]%Q
      (animateCounter "fleetEfficiency" (Js.Fin (inject_Z 67)) "%" examplePage)
      = (fun v => Some (pretty v +:+ "%")) <$> values /\
    last values = Some 67.
Proof.
  assert (exactRange 0) as H0 by (unfold exactRange; lia).
  assert (exactRange 67) as H67 by (unfold exactRange; lia).
  split; [reflexivity|]. split; [reflexivity|]. split; [exact H0|].
  split; [exact H67|].
  destruct (animateCounter_converges "fleetEfficiency" "0%" 0 67 "%"
              [16; 500; 1000; 1016]%Q examplePage)
    as (values & H2 & _ & _ & H5 & _).
  - reflexivity.
  - reflexivity.
  - exact H0.
  - exact H67.
  - reflexivity.
  - repeat constructor; by vm_compute.
  - repeat constructor; by vm_compute.
  - apply Exists_cons_tl, Exists_cons_tl, Exists_cons_hd. by vm_compute.
  - exists values. split; [exact H2|exact H5].
Defined.

(** X16: Progress is cut off at 1 but not at 0: a frame whose timestamp is not
    later than the [performance.now()] of the call shows a number on the far
    side of the start from the target, and asks for the next frame. *)
Theorem animate_before_start a s z t :
  startValue a = Js.Fin s -> targetValue a = Js.Fin (inject_Z z) ->
  (t <= startTime a)%Q ->
  exists v, currentValue a t = Js.Fin v /\
            (s <= z -> v <= s) /\ (z <= s -> s <= v) /\
            running a t = true.
Proof.
  intros Hs Hz Ht.
  exists (counterValue s (inject_Z z) (progress a t)).
  split; [by apply currentValue_finite|].
  assert (progress a t <= 0)%Q as Hp.
  { unfold progress. eapply Qle_trans; [apply Q.le_min_l|].
    apply Qle_shift_div_r; [done|lra]. }
  split; [|split].
  - intros Hsz. rewrite <- (counterValue_start s (inject_Z z) 0) at 2 by reflexivity.
    apply counterValue_mono; [by rewrite <- Zle_Qle|done|lra].
  - intros Hzs. rewrite <- (counterValue_start s (inject_Z z) 0) at 1 by reflexivity.
    apply counterValue_anti; [by rewrite <- Zle_Qle|done|lra].
  - unfold running. destruct (Qlt_le_dec (progress a t) 1); [done|lra].
Qed.

Example animate_early_frame : frameText towards42 0 = "-19".
Proof. reflexivity. Qed.

Lemma animate_before_start_witness :
  startValue towards42 = Js.Fin 0 /\ (0 <= startTime towards42)%Q /\
  exists v, currentValue towards42 0 = Js.Fin v /\
            (0 <= 42 -> v <= 0) /\ (42 <= 0 -> 0 <= v) /\
            running towards42 0 = true.
Proof.
  assert (0 <= startTime towards42)%Q as Ht by (by vm_compute).
  split; [reflexivity|]. split; [exact Ht|].
  exact (animate_before_start towards42 0 42 0 eq_refl eq_refl Ht).
Defined.

(** ** Reading back what a counter shows *)

Lemma digit_pretty_N_char d :
  (d < 10)%N -> Js.digit 10 (pretty_N_char d) = Some (Z.of_N d).
Proof.
  intros Hd.
  assert (d = 0 \/ d = 1 \/ d = 2 \/ d = 3 \/ d = 4 \/ d = 5 \/ d = 6 \/ d = 7
          \/ d = 8 \/ d = 9)%N as H by lia.
  repeat (destruct H as [->|H]; [reflexivity|]). by subst.
Qed.

Lemma digits_pretty_N_go x : forall s,
  (0 < x)%N -> Js.digits 10 (pretty_N_go x s) None = Js.digits 10 s (Some (Z.of_N x)).
Proof.
  induction (N.lt_wf_0 x) as [x _ IH]. intros s Hx.
  rewrite pretty_N_go_step by done.
  assert (x `mod` 10 < 10)%N as Hmod by (by apply N.mod_lt).
  pose proof (N.div_mod x 10 ltac:(done)) as Hdm.
  destruct (decide (x `div` 10 = 0)%N) as [Hz|Hnz].
  - rewrite Hz, pretty_N_go_0. simpl.
    rewrite digit_pretty_N_char by done. simpl. do 2 f_equal. lia.
  - rewrite IH; [|apply N.div_lt; lia|lia]. simpl.
    rewrite digit_pretty_N_char by done. simpl. do 2 f_equal. lia.
Qed.

Lemma pretty_N_go_app x : forall s t, pretty_N_go x s +:+ t = pretty_N_go x (s +:+ t).
Proof.
  induction (N.lt_wf_0 x) as [x _ IH]. intros s t.
  destruct (decide (0 < x)%N) as [Hx|Hx].
  - rewrite (pretty_N_go_step x s), (pretty_N_go_step x (s +:+ t)) by done.
    rewrite IH by (by apply N.div_lt). reflexivity.
  - assert (x = 0%N) as -> by lia. by rewrite !pretty_N_go_0.
Qed.

Lemma pretty_N_go_head x : forall s,
  (0 < x)%N -> exists c r, pretty_N_go x s = String c r /\ leadingDigit c.
Proof.
  induction (N.lt_wf_0 x) as [x _ IH]. intros s Hx.
  rewrite pretty_N_go_step by done.
  destruct (decide (x `div` 10 = 0)%N) as [Hz|Hnz].
  - rewrite Hz, pretty_N_go_0. eexists _, _. split; [done|].
    exists (x `mod` 10)%N. split; [|done].
    pose proof (N.div_mod x 10 ltac:(done)). pose proof (N.mod_lt x 10 ltac:(done)).
    lia.
  - apply IH; [by apply N.div_lt|by apply N.neq_0_lt_0].
Qed.

Lemma parseInt_leadingDigit c r :
  leadingDigit c ->
  Js.parseInt (String c r)
  = match Js.digits 10 (String c r) None with
    | Some n => Js.Fin n
    | None => Js.NaN
    end /\
  Js.parseInt (String "-" (String c r))
  = match Js.digits 10 (String c r) None with
    | Some n => Js.Fin (- n)
    | None => Js.NaN
    end.
Proof.
  intros (d & Hd & ->).
  assert (d = 1 \/ d = 2 \/ d = 3 \/ d = 4 \/ d = 5 \/ d = 6 \/ d = 7
          \/ d = 8 \/ d = 9)%N as H by lia.
  repeat (destruct H as [->|H]; [split; reflexivity|]). subst. split; reflexivity.
Qed.

Lemma digits_plainSuffix sfx acc : plainSuffix sfx -> Js.digits 10 sfx acc = acc.
Proof. destruct sfx as [|c r]; [done|]. simpl. by intros [-> _]. Qed.

Lemma parseInt_pretty_positive p sfx :
  plainSuffix sfx ->
  Js.parseInt (pretty (N.pos p) +:+ sfx) = Js.Fin (Z.pos p) /\
  Js.parseInt ("-" +:+ pretty (N.pos p) +:+ sfx) = Js.Fin (Z.neg p).
Proof.
  intros Hsfx. unfold pretty, pretty_N. rewrite decide_False by done.
  rewrite pretty_N_go_app. change ("" +:+ sfx) with sfx.
  destruct (pretty_N_go_head (N.pos p) sfx) as (c & r & Hcr & Hc); [done|].
  pose proof (digits_pretty_N_go (N.pos p) sfx ltac:(done)) as Hdigits.
  rewrite (digits_plainSuffix sfx _ Hsfx) in Hdigits.
  change ("-" +:+ pretty_N_go (N.pos p) sfx)
    with (String "-" (pretty_N_go (N.pos p) sfx)).
  rewrite Hcr in *.
  destruct (parseInt_leadingDigit c r Hc) as [-> ->]. by rewrite Hdigits.
Qed.

(** X17: What a counter shows reads back as the number shown: [parseInt] of the
    text of an integer in the exact range followed by a plain suffix (none
    and the percent sign are the two the class uses) is that integer.  So
    an animation started on a counter that has settled starts from the
    number it settled on. *)
Theorem counter_text_read_back z sfx :
  exactRange z -> plainSuffix sfx ->
  Js.parseInt (Js.to_string (Js.Fin z) +:+ sfx) = Js.Fin z /\
  forall w id target sfx',
    texts w !! id = Some (Js.to_string (Js.Fin z) +:+ sfx) ->
    frameCallbacks (animateCounter id target sfx' w)
    = frameCallbacks w
      ++ [{| element := id; startValue := Js.Fin z; startTime := clock w;
             targetValue := target; suffix := sfx' |}].
Proof.
  intros Hrange Hsfx.
  assert (Js.parseInt (Js.to_string (Js.Fin z) +:+ sfx) = Js.Fin z) as Hread.
  { unfold Js.to_string. destruct z as [|p|p].
    - change (pretty 0 +:+ sfx) with (String "0" sfx).
      destruct sfx as [|c r]; [reflexivity|]. destruct Hsfx as (Hd & Hx & HX).
      unfold Js.parseInt.
      change (Js.skip_spaces (String "0" (String c r))) with (String "0" (String c r)).
      cbv beta iota zeta.
      assert (match String "0" (String c r) with
              | String "0" (String "x" r0) => (16, r0)
              | String "0" (String "X" r0) => (16, r0)
              | _ => (10, String "0" (String c r))
              end = (10, String "0" (String c r))) as ->.
      { destruct c as [[] [] [] [] [] [] [] []]; try reflexivity; by exfalso. }
      simpl. by rewrite Hd.
    - apply (parseInt_pretty_positive p sfx Hsfx).
    - change (pretty (Z.neg p)) with ("-" +:+ pretty (N.pos p)).
      replace (("-" +:+ pretty (N.pos p)) +:+ sfx)
        with ("-" +:+ pretty (N.pos p) +:+ sfx) by reflexivity.
      apply (parseInt_pretty_positive p sfx Hsfx). }
  split; [exact Hread|].
  intros w id target sfx' Htext.
  unfold animateCounter. rewrite Htext, Hread, (to_double_exact z Hrange).
  reflexivity.
Qed.

Lemma counter_text_read_back_witness :
  exactRange 67 /\ plainSuffix "%" /\
  Js.parseInt (Js.to_string (Js.Fin 67) +:+ "%") = Js.Fin 67.
Proof.
  assert (exactRange 67) as Hz by (unfold exactRange; lia).
  assert (plainSuffix "%") as H by (by repeat split).
  split; [exact Hz|]. split; [exact H|].
  exact (proj1 (counter_text_read_back 67 "%" Hz H)).
Defined.

(** ** A second animation on the same counter *)

Lemma animationFrame_pair a1 a2 t w :
  frameCallbacks w = [a1; a2] -> element a1 = element a2 ->
  texts (animationFrame t w) !! element a2 = Some (frameText a2 t) /\
  frameCallbacks (animationFrame t w)
    = (if running a1 t then [a1] else []) ++ (if running a2 t then [a2] else []).
Proof.
  intros Hq He. destruct (animationFrame_spec t w) as [-> ->]. rewrite Hq. simpl.
  rewrite He, lookup_insert_eq. split; [done|].
  by destruct (running a1 t), (running a2 t).
Qed.

Lemma running_earlier a1 a2 t :
  (startTime a1 <= startTime a2)%Q -> running a2 t = false -> running a1 t = false.
Proof.
  intros Hle H2%running_false. unfold running.
  destruct (Qlt_le_dec (progress a1 t) 1) as [Hlt|]; [|done]. exfalso.
  assert (progress a2 t <= progress a1 t)%Q as Hp.
  { unfold progress. apply Q.min_le_compat_r.
    apply Qmult_le_compat_r; [lra|done]. }
  rewrite H2 in Hp. by apply Qlt_not_le in Hlt.
Qed.

(** Two callbacks on one element, the later one asked for no earlier than
    the other: the later one writes last in every frame, and is not yet
    finished when the other runs alone. *)
Lemma pair_settles a1 a2 s z :
  element a1 = element a2 -> (startTime a1 <= startTime a2)%Q ->
  startValue a2 = Js.Fin s -> targetValue a2 = Js.Fin (inject_Z z) ->
  forall ts w,
    frameCallbacks w = [a1; a2] \/ frameCallbacks w = [a2] \/
    (frameCallbacks w = [] /\ texts w !! element a2 = Some (finalText a2)) ->
    Exists (fun t => startTime a2 + 1000 <= t)%Q ts \/ frameCallbacks w = [] ->
    texts (runFrames ts w) !! element a2 = Some (finalText a2) /\
    frameCallbacks (runFrames ts w) = [].
Proof.
  intros He Hle Hs Hz. induction ts as [|t ts IH]; intros w Hw Hend.
  - destruct Hend as [Hex|Hq]; [by apply Exists_nil in Hex|]. simpl.
    destruct Hw as [Hw|[Hw|[_ Hw]]]; [congruence|congruence|done].
  - simpl.
    assert (running a2 t = true ->
            Exists (fun t => startTime a2 + 1000 <= t)%Q ts \/
            frameCallbacks w = []) as Hrest.
    { intros Hrun. destruct Hend as [Hex|Hq]; [|by right]. left.
      apply Exists_cons in Hex as [Hex|Hex]; [|done].
      apply progress_done in Hex. apply running_true in Hrun.
      by apply Qlt_not_le in Hrun. }
    destruct Hw as [Hw|[Hw|[Hw Htext]]].
    + destruct (animationFrame_pair a1 a2 t w Hw He) as [Ht Hq].
      destruct (running a2 t) eqn:H2.
      * apply IH.
        -- rewrite Hq. destruct (running a1 t); [by left|by right; left].
        -- destruct (Hrest eq_refl) as [?|?]; [by left|congruence].
      * rewrite (running_earlier a1 a2 t Hle H2) in Hq.
        apply IH; [|by right].
        right; right. split; [done|].
        rewrite Ht. f_equal. by apply (frameText_final a2 s z).
    + destruct (animationFrame_single a2 t w Hw) as [Ht Hq].
      destruct (running a2 t) eqn:H2.
      * apply IH; [by right; left|].
        destruct (Hrest eq_refl) as [?|?]; [by left|congruence].
      * apply IH; [|by right].
        right; right. split; [done|].
        rewrite Ht, lookup_insert_eq. f_equal. by apply (frameText_final a2 s z).
    + destruct (animationFrame_idle t w Hw) as [Ht Hq].
      apply IH; [|by right]. right; right. split; [done|]. by rewrite Ht.
Qed.

Lemma single_runs a ts : forall w,
  frameCallbacks w = [a] \/ frameCallbacks w = [] ->
  is_Some (texts w !! element a) ->
  (frameCallbacks (runFrames ts w) = [a] \/ frameCallbacks (runFrames ts w) = []) /\
  is_Some (texts (runFrames ts w) !! element a).
Proof.
  induction ts as [|t ts IH]; intros w Hq Htext; simpl; [done|].
  destruct Hq as [Hq|Hq].
  - destruct (animationFrame_single a t w Hq) as [Ht Hq'].
    apply IH.
    + rewrite Hq'. destruct (running a t); [by left|by right].
    + rewrite Ht, lookup_insert_eq. eauto.
  - destruct (animationFrame_idle t w Hq) as [Ht Hq'].
    apply IH; [by right|by rewrite Ht].
Qed.

(** X18: When a counter is sent to a second number while its animation towards
    the first may still be running, whatever frames came in between, it
    ends on the second: once a frame has come a second after the second
    call the counter reads the second target with its suffix, and no
    callback is left.  (The number read at the second call and the second
    target are in the exact range.) *)
Theorem later_animation_wins id text target1 sfx1 z2 sfx2 ts1 c2 ts2 w :
  texts w !! id = Some text ->
  frameCallbacks w = [] ->
  (clock w <= c2)%Q ->
  Exists (fun t => c2 + 1000 <= t)%Q ts2 ->
  let w1 := animateCounter id target1 sfx1 w in
  let w2 := set_clock c2 (runFrames ts1 w1) in
  let w3 := animateCounter id (Js.Fin (inject_Z z2)) sfx2 w2 in
  (forall text2 s2, texts w2 !! id = Some text2 ->
     Js.or_zero (Js.parseInt text2) = Js.Fin s2 -> exactRange s2) ->
  exactRange z2 ->
  texts (runFrames ts2 w3) !! id = Some (pretty z2 +:+ sfx2) /\
  frameCallbacks (runFrames ts2 w3) = [].
Proof.
  intros Htext Hidle Hclock Hlate w1 w2 w3 Hread _.
  set (a1 := {| element := id;
                startValue := Js.or_zero (Js.to_double (Js.parseInt text));
                startTime := clock w; targetValue := target1; suffix := sfx1 |}).
  assert (frameCallbacks w1 = [a1] /\ texts w1 = texts w) as [Hq1 Ht1].
  { subst w1. unfold animateCounter. rewrite Htext. simpl. by rewrite Hidle. }
  destruct (single_runs a1 ts1 w1) as [Hq2 [text2 Ht2]]; [by left| |].
  { rewrite Ht1. simpl. eauto. }
  change (element a1) with id in Ht2.
  destruct (or_zero_parseInt text2) as [s Hs].
  assert (exactRange s) as Hrange by (by apply (Hread text2)).
  set (a2 := {| element := id; startValue := Js.Fin s;
                startTime := c2; targetValue := Js.Fin (inject_Z z2);
                suffix := sfx2 |}).
  assert (frameCallbacks w3 = frameCallbacks (runFrames ts1 w1) ++ [a2]) as Hq3.
  { subst w3 w2. unfold animateCounter.
    change (texts (set_clock c2 ?x)) with (texts x).
    by rewrite Ht2, (read_exact text2 s Hs Hrange). }
  destruct (pair_settles a1 a2 s z2 eq_refl Hclock eq_refl eq_refl ts2 w3)
    as [Hfin Hover].
  - rewrite Hq3. destruct Hq2 as [-> | ->]; [by left|by right; left].
  - by left.
  - split; [|done]. change (element a2) with id in Hfin. rewrite Hfin.
    unfold finalText.
    change (targetValue a2) with (Js.Fin (inject_Z z2)). by rewrite round_integer.
Qed.

Example later_animation_example :
  texts (runFrames [600; 1000; 1500]%Q
           (animateCounter "totalVehicles" (Js.Fin 7%Q) ""
              (set_clock 500
                 (runFrames [16; 400]%Q
                    (animateCounter "totalVehicles" (Js.Fin 42%Q) "" examplePage)))))
    !! "totalVehicles" = Some "7".
Proof. reflexivity. Qed.

Lemma later_animation_wins_witness :
  texts examplePage !! "totalVehicles" = Some "0" /\
  (clock examplePage <= 500)%Q /\
  exactRange 7 /\
  texts (runFrames [600; 1000; 1500]%Q
           (animateCounter "totalVehicles" (Js.Fin (inject_Z 7)) ""
              (set_clock 500
                 (runFrames [16; 400]%Q
                    (animateCounter "totalVehicles" (Js.Fin 42%Q) "" examplePage)))))
    !! "totalVehicles" = Some (pretty 7 +:+ "").
Proof.
  assert (clock examplePage <= 500)%Q as Hc by (by vm_compute).
  assert (exactRange 7) as Hz by (unfold exactRange; lia).
  split; [reflexivity|]. split; [exact Hc|]. split; [exact Hz|].
  refine (proj1 (later_animation_wins "totalVehicles" "0" (Js.Fin 42%Q) "" 7 ""
                   [16; 400]%Q 500 [600; 1000; 1500]%Q examplePage
                   eq_refl eq_refl Hc _ _ Hz)).
  - apply Exists_cons_tl, Exists_cons_tl, Exists_cons_hd. by vm_compute.
  - intros text2 s2 Htext2 Hs2.
    vm_compute in Htext2. injection Htext2 as <-.
    vm_compute in Hs2. injection Hs2 as <-.
    unfold exactRange. lia.
Defined.

(** ** Notifications *)

Ltac by_cases := intuition (try discriminate; try congruence; try lia).

(** X19: Every call shows exactly one toast, of the type given; a native
    notification is raised as well exactly when the type is error and the
    permission has been granted. *)
Theorem showNotification_events text type duration w :
  exists events,
    trace (showNotification text type duration w) = trace w ++ events /\
    List.filter (fun e => match e with EToast _ _ _ => true | _ => false end) events
      = [EToast text type duration] /\
    (ENotification text ∈ events <->
     type = "error" /\ permission w = Some PermGranted) /\
    length (List.filter isErrorToast events) = (if decide (type = "error") then 1 else 0)%nat.
Proof.
  exists (EToast text type duration ::
          if decide (type = "error")
          then match permission w with
               | Some PermGranted => [ENotification text]
               | _ => []
               end
          else []).
  split; [|split; [|split]].
  - unfold showNotification.
    destruct (decide (type = "error")) as [Heq|Hne]; [|done].
    simpl. destruct (permission w) as [[]|]; simpl; by rewrite <- ?app_assoc.
  - destruct (decide (type = "error")); [|done].
    by destruct (permission w) as [[]|].
  - rewrite elem_of_cons.
    destruct (decide (type = "error")) as [Heq|Hne].
    + destruct (permission w) as [[]|] eqn:Hp;
        rewrite ?elem_of_nil;
        by_cases.
      right. by constructor.
    + rewrite elem_of_nil. by_cases.
  - simpl. destruct (decide (type = "error")) as [Heq|Hne].
    + rewrite bool_decide_eq_true_2 by done.
      by destruct (permission w) as [[]|].
    + by rewrite bool_decide_eq_false_2.
Qed.

(** ** The common script *)

Lemma elem_of_toggleClass c cs x :
  x ∈ Common.toggleClass c cs <-> (x <> c /\ x ∈ cs) \/ (x = c /\ c ∉ cs).
Proof.
  unfold Common.toggleClass.
  destruct (decide (c ∈ cs)) as [Hin|Hout].
  - rewrite elem_of_difference, elem_of_singleton. intuition.
  - rewrite elem_of_union, elem_of_singleton.
    destruct (decide (x = c)) as [->|]; intuition.
Qed.

Lemma toggleClass_twice c cs :
  Common.toggleClass c (Common.toggleClass c cs) = cs.
Proof.
  apply set_eq. intros x. rewrite !elem_of_toggleClass.
  destruct (decide (x = c)) as [->|]; destruct (decide (c ∈ cs)); intuition.
Qed.

Lemma elem_of_remove_class (c x : string) (cs : gset string) :
  x ∈ cs ∖ {[c]} <-> x ∈ cs /\ x <> c.
Proof. by rewrite elem_of_difference, elem_of_singleton. Qed.

Lemma toggleDarkMode_stored p :
  Common.localStorage (Common.toggleDarkMode p) !! "darkMode"
  = Some (if decide ("dark-mode" ∈ Common.bodyClasses (Common.toggleDarkMode p))
          then "true" else "false").
Proof.
  unfold Common.toggleDarkMode at 1. simpl. rewrite lookup_insert_eq.
  f_equal. by destruct (decide _) as [Hin|Hout];
    [rewrite bool_decide_eq_true_2|rewrite bool_decide_eq_false_2].
Qed.

(** X20: Toggling the dark mode flips the class on the body and nothing else of
    it, stores the new state as "true" or "false", and labels the toggle
    with the mode a click would bring; toggling again brings the classes of
    the body back. *)
Theorem toggleDarkMode_effect p :
  let p' := Common.toggleDarkMode p in
  ("dark-mode" ∈ Common.bodyClasses p' <-> "dark-mode" ∉ Common.bodyClasses p) /\
  (forall c, c <> "dark-mode" ->
     (c ∈ Common.bodyClasses p' <-> c ∈ Common.bodyClasses p)) /\
  Common.localStorage p' !! "darkMode"
    = Some (if decide ("dark-mode" ∈ Common.bodyClasses p') then "true" else "false") /\
  (is_Some (Common.darkToggle p) ->
   Common.darkToggle p'
     = Some (if decide ("dark-mode" ∈ Common.bodyClasses p')
             then Common.lightLabel else Common.darkLabel)) /\
  Common.bodyClasses (Common.toggleDarkMode p') = Common.bodyClasses p.
Proof.
  intros p'. subst p'.
  assert (forall x, x ∈ Common.bodyClasses (Common.toggleDarkMode p)
                    <-> x ∈ Common.toggleClass "dark-mode" (Common.bodyClasses p))
    as Hcs by done.
  assert ("dark-mode" ∈ Common.bodyClasses (Common.toggleDarkMode p)
          <-> "dark-mode" ∉ Common.bodyClasses p) as Hflip.
  { rewrite Hcs, elem_of_toggleClass. intuition. }
  split; [exact Hflip|]. split.
  { intros c Hc. rewrite Hcs, elem_of_toggleClass. intuition. }
  split.
  { apply toggleDarkMode_stored. }
  split.
  { intros [label Hl]. unfold Common.toggleDarkMode at 1. simpl. rewrite Hl.
    f_equal. by destruct (decide _) as [Hin|Hout];
      [rewrite bool_decide_eq_true_2|rewrite bool_decide_eq_false_2]. }
  apply toggleClass_twice.
Qed.

Lemma toggleDarkMode_effect_witness :
  is_Some (Common.darkToggle lightPage) /\
  Common.darkToggle (Common.toggleDarkMode lightPage)
    = Some (if decide ("dark-mode" ∈ Common.bodyClasses (Common.toggleDarkMode lightPage))
            then Common.lightLabel else Common.darkLabel).
Proof.
  assert (is_Some (Common.darkToggle lightPage)) as H by (eexists; reflexivity).
  split; [exact H|].
  destruct (toggleDarkMode_effect lightPage) as (_ & _ & _ & H4 & _).
  exact (H4 H).
Defined.

(** X21: The preference survives a reload: on a page loaded without the class,
    with the storage a toggle left, the script at the top puts the page in
    dark mode exactly when the toggle had; with no preference stored, or
    anything but "true", it leaves the page as it is. *)
Theorem darkMode_round_trip p fresh :
  "dark-mode" ∉ Common.bodyClasses fresh ->
  (Common.localStorage fresh = Common.localStorage (Common.toggleDarkMode p) ->
   ("dark-mode" ∈ Common.bodyClasses (Common.loadPreference fresh)
    <-> "dark-mode" ∈ Common.bodyClasses (Common.toggleDarkMode p))) /\
  (Common.localStorage fresh !! "darkMode" <> Some "true" ->
   Common.loadPreference fresh = fresh).
Proof.
  intros Hfresh. split.
  - intros Hst. pose proof (toggleDarkMode_stored p) as Hstored.
    rewrite <- Hst in Hstored.
    unfold Common.loadPreference. rewrite Hstored.
    destruct (decide ("dark-mode" ∈ Common.bodyClasses (Common.toggleDarkMode p)))
      as [Hin|Hout].
    + rewrite decide_True by done. simpl.
      rewrite elem_of_union, elem_of_singleton. intuition.
    + rewrite decide_False by done. intuition.
  - intros Hne. unfold Common.loadPreference. by rewrite decide_False.
Qed.

Lemma darkMode_round_trip_witness :
  ("dark-mode" ∉ Common.bodyClasses lightPage) /\
  (Common.localStorage lightPage !! "darkMode" <> Some "true") /\
  Common.loadPreference lightPage = lightPage.
Proof.
  assert ("dark-mode" ∉ Common.bodyClasses lightPage) as H1.
  { apply (bool_decide_unpack _). by vm_compute. }
  assert (Common.localStorage lightPage !! "darkMode" <> Some "true") as H2 by done.
  split; [exact H1|]. split; [exact H2|].
  exact (proj2 (darkMode_round_trip lightPage lightPage H1) H2).
Defined.

(** X22: The click listener of the document fails with a [TypeError] exactly on
    a narrow window (768 or less) when the page has no sidebar, or has no
    menu button and the click is outside the sidebar.  Otherwise it changes
    the classes of the sidebar at most, and of those only [mobile-open],
    which it removes exactly when the window is narrow and the click is
    outside both the sidebar and the button. *)
Theorem onDocumentClick_effect inSidebar inMenuBtn p :
  (Common.onDocumentClick inSidebar inMenuBtn p = None <->
   Common.innerWidth p <= 768 /\
   (Common.sidebar p = None \/
    (inSidebar = false /\ Common.mobileMenuBtn p = false))) /\
  forall p', Common.onDocumentClick inSidebar inMenuBtn p = Some p' ->
    (Common.bodyClasses p', Common.darkToggle p', Common.localStorage p',
     Common.mobileMenuBtn p', Common.dropdown p', Common.innerWidth p')
    = (Common.bodyClasses p, Common.darkToggle p, Common.localStorage p,
       Common.mobileMenuBtn p, Common.dropdown p, Common.innerWidth p) /\
    forall cs, Common.sidebar p = Some cs ->
      exists cs', Common.sidebar p' = Some cs' /\
        (forall c, c <> "mobile-open" -> (c ∈ cs' <-> c ∈ cs)) /\
        ("mobile-open" ∈ cs' <->
         "mobile-open" ∈ cs /\
         ~ (Common.innerWidth p <= 768 /\ inSidebar = false /\ inMenuBtn = false)).
Proof.
  unfold Common.onDocumentClick.
  destruct (Z.leb_spec (Common.innerWidth p) 768) as [Hw|Hw].
  - destruct (Common.sidebar p) as [cs|] eqn:Hs; [|split; [by_cases|done]].
    destruct inSidebar.
    { split; [by_cases|]. intros p' [= <-]. split; [done|].
      intros cs0 [= <-]. exists cs. rewrite Hs. by_cases. }
    destruct (Common.mobileMenuBtn p) eqn:Hb; [|split; [by_cases|done]].
    destruct inMenuBtn.
    { split; [by_cases|]. intros p' [= <-]. split; [by rewrite Hb|].
      intros cs0 [= <-]. exists cs. rewrite Hs. by_cases. }
    destruct (decide ("mobile-open" ∈ cs)) as [Hin|Hout].
    + split; [by_cases|]. intros p' [= <-]. split; [simpl; by rewrite Hb|].
      intros cs0 [= <-]. exists (cs ∖ {["mobile-open"]}).
      simpl. split; [done|]. split.
      * intros c Hc. rewrite elem_of_remove_class. by_cases.
      * rewrite elem_of_remove_class. by_cases.
    + split; [by_cases|]. intros p' [= <-]. split; [by rewrite Hb|].
      intros cs0 [= <-]. exists cs. rewrite Hs. by_cases.
  - split; [split; [done|lia]|]. intros p' [= <-]. split; [done|].
    intros cs Hs. exists cs. split; [done|]. split; [done|].
    split; [|by_cases]. intros Hin. split; [done|]. lia.
Qed.

Lemma onDocumentClick_effect_witness :
  Common.onDocumentClick false false lightPage
    = Some (Common.set_sidebar {["sidebar"]} lightPage) /\
  exists cs', Common.sidebar (Common.set_sidebar {["sidebar"]} lightPage) = Some cs' /\
    (forall c, c <> "mobile-open" ->
       (c ∈ cs' <-> c ∈ ({["sidebar"; "mobile-open"]} : gset string))).
Proof.
  assert (Common.onDocumentClick false false lightPage
          = Some (Common.set_sidebar {["sidebar"]} lightPage)) as H.
  { vm_compute. reflexivity. }
  split; [exact H|].
  destruct (proj2 (onDocumentClick_effect false false lightPage) _ H) as (_ & H2).
  destruct (H2 _ eq_refl) as (cs' & H3 & H4 & _). by exists cs'.
Defined.

(** X23: Without a sidebar [toggleSidebar] fails, and so does the resize
    listener on a window wider than 768; with one, [toggleSidebar] twice
    brings its classes back, and after a resize to a wide window the
    sidebar is not open, while on a narrow one nothing changes. *)
Theorem sidebar_toggle_and_resize p :
  (Common.toggleSidebar p = None <-> Common.sidebar p = None) /\
  (Common.onResize p = None <-> 768 < Common.innerWidth p /\ Common.sidebar p = None) /\
  (forall p' p'', Common.toggleSidebar p = Some p' ->
     Common.toggleSidebar p' = Some p'' -> Common.sidebar p'' = Common.sidebar p) /\
  (forall p' cs', Common.onResize p = Some p' -> Common.sidebar p' = Some cs' ->
     768 < Common.innerWidth p -> "mobile-open" ∉ cs') /\
  (Common.innerWidth p <= 768 -> Common.onResize p = Some p).
Proof.
  unfold Common.toggleSidebar, Common.onResize.
  destruct (Z.ltb_spec 768 (Common.innerWidth p)) as [Hw|Hw];
    destruct (Common.sidebar p) as [cs|] eqn:Hs; simpl;
    (split; [by_cases|]); (split; [by_cases|]);
    (split; [|split; [|intros; (done || lia)]]); try done.
  - intros p' p'' [= <-]. simpl. intros [= <-]. simpl. f_equal.
    apply toggleClass_twice.
  - intros p' cs' [= <-]. simpl. intros [= <-] _.
    rewrite elem_of_remove_class. intuition.
  - intros p' p'' [= <-]. simpl. intros [= <-]. simpl. f_equal.
    apply toggleClass_twice.
  - intros p' cs' _ _ ?. lia.
  - intros p' cs' _ _ ?. lia.
Qed.

Lemma sidebar_toggle_and_resize_witness :
  Common.innerWidth lightPage <= 768 /\ Common.onResize lightPage = Some lightPage.
Proof.
  assert (Common.innerWidth lightPage <= 768) as H by (simpl; lia).
  split; [exact H|].
  destruct (sidebar_toggle_and_resize lightPage) as (_ & _ & _ & _ & H5).
  exact (H5 H).
Defined.
